(** * RT-ODLab: the CTRNet training criterion

    A shallow embedding of [models/detectors/ctrnet/loss.py] (class
    [Criterion] and [build_criterion]) and of the criterion step of
    [models/detectors/e2eyolo/build.py].  The torch kernels and the
    helpers of the repository whose files are not part of the sources
    (the matcher, the box metric) are parameters.

    Tensors are lists (a [B, M, C] tensor is a list of lists of lists),
    rows of a [.., 4] or [.., 2] tensor are records, scalars are real
    numbers, integer labels and epochs are in [Z].  A Python exception
    (IndexError, KeyError, a torch shape error) is [None]. *)

From Stdlib Require Import String Ascii Bool ZArith Reals Lra Lia List.
Import ListNotations.

Local Open Scope string_scope.
Local Open Scope list_scope.
Local Open Scope R_scope.

(** ** Exceptions as [option] *)

Definition bind {A B : Type} (c : option A) (k : A -> option B) : option B :=
  match c with
  | Some a => k a
  | None => None
  end.

Notation "x <- c ;; k" := (bind c (fun x => k))
  (at level 61, c at next level, right associativity).

(** ** Python dictionaries with string keys

    A [dict] keeps its keys in insertion order; assigning to a key that
    is present replaces the value in place, assigning to a new key
    appends it. *)

Definition Dict := list (string * R).

Fixpoint dict_get (d : Dict) (k : string) : option R :=
  match d with
  | [] => None
  | (k', v) :: d' => if String.eqb k' k then Some v else dict_get d' k
  end.

Fixpoint dict_set (d : Dict) (k : string) (v : R) : Dict :=
  match d with
  | [] => [(k, v)]
  | (k', v') :: d' =>
      if String.eqb k' k then (k, v) :: d' else (k', v') :: dict_set d' k v
  end.

Definition dict_keys (d : Dict) : list string := map fst d.

Definition dict_mem (d : Dict) (k : string) : bool :=
  match dict_get d k with
  | Some _ => true
  | None => false
  end.

(** ** Python values passed for [aux_loss]

    [compute_loss] tests its third parameter with [not aux_loss]; it
    receives either the default [False] or whatever the caller passes
    in third position. *)

Inductive PyArg : Type :=
| PyBool (b : bool)
| PyInt (z : Z).

Definition truthy (a : PyArg) : bool :=
  match a with
  | PyBool b => b
  | PyInt z => negb (z =? 0)%Z
  end.

(** ** Tensors *)

(** A row of a [.., 2] tensor (an anchor point, a centre, a size). *)
Record Row2 : Type := mkRow2 { r2_0 : R; r2_1 : R }.

(** A row of a [.., 4] tensor (an xyxy box, a raw regression vector). *)
Record Row4 : Type := mkRow4 { r4_0 : R; r4_1 : R; r4_2 : R; r4_3 : R }.

(** [t[..., :2]] and [t[..., 2:]] on a [.., 4] tensor. *)
Definition lo2 (b : Row4) : Row2 := mkRow2 (r4_0 b) (r4_1 b).
Definition hi2 (b : Row4) : Row2 := mkRow2 (r4_2 b) (r4_3 b).

(** [torch.cat([a, b], dim=-1)] on two [.., 2] tensors. *)
Definition cat2 (a b : Row2) : Row4 :=
  mkRow4 (r2_0 a) (r2_1 a) (r2_0 b) (r2_1 b).

Definition row2_add (a b : Row2) : Row2 := mkRow2 (r2_0 a + r2_0 b) (r2_1 a + r2_1 b).
Definition row2_sub (a b : Row2) : Row2 := mkRow2 (r2_0 a - r2_0 b) (r2_1 a - r2_1 b).
Definition row2_scale (a : Row2) (c : R) : Row2 := mkRow2 (r2_0 a * c) (r2_1 a * c).
(** Division of a [.., 2] row by the matching [.., 1] row (broadcast on
    the last axis). *)
Definition row2_div (a : Row2) (s : R) : Row2 := mkRow2 (r2_0 a / s) (r2_1 a / s).
Definition row2_map (f : R -> R) (a : Row2) : Row2 := mkRow2 (f (r2_0 a)) (f (r2_1 a)).

Definition row4_sum (a : Row4) : R := r4_0 a + r4_1 a + r4_2 a + r4_3 a.

(** Elementwise operation on two tensors with the same leading axis.
    Wherever the criterion applies one, both operands were gathered with
    the same index tensor; on operands of different lengths (where torch
    broadcasts or raises) [map2] stops at the shorter one. *)
Fixpoint map2 {A B C : Type} (f : A -> B -> C) (l1 : list A) (l2 : list B) : list C :=
  match l1, l2 with
  | a :: l1', b :: l2' => f a b :: map2 f l1' l2'
  | _, _ => []
  end.

(** [t.sum()] of a 1-D tensor. *)
Definition tsum (l : list R) : R := fold_right Rplus 0 l.

(** A 2-D tensor [rows, cols] of scalars: the column count is kept
    (it is [shape[-1]] also when there is no row). *)
Record Tensor2 : Type := mkTensor2 { t2_cols : nat; t2_rows : list (list R) }.

Definition t2_wf (t : Tensor2) : Prop :=
  Forall (fun r => length r = t2_cols t) (t2_rows t).

(** A tensor of [n] rows of [c] scalars each. *)
Definition t2_shape (t : Tensor2) (n c : nat) : Prop :=
  length (t2_rows t) = n /\ Forall (fun r => length r = c) (t2_rows t).

Definition t2_map (f : R -> R) (t : Tensor2) : Tensor2 :=
  mkTensor2 (t2_cols t) (map (map f) (t2_rows t)).

Definition t2_map2 (f : R -> R -> R) (a b : Tensor2) : Tensor2 :=
  mkTensor2 (t2_cols a) (map2 (map2 f) (t2_rows a) (t2_rows b)).

(** [t.new_zeros(shape)] with the shape of [t]. *)
Definition t2_new_zeros (t : Tensor2) : Tensor2 := t2_map (fun _ => 0) t.

(** [t.sum()] of a 2-D tensor: every element. *)
Definition t2_sum (t : Tensor2) : R := tsum (map tsum (t2_rows t)).

Definition t2_get (t : Tensor2) (i j : nat) : option R :=
  row <- nth_error (t2_rows t) i ;; nth_error row j.

(** [mask.nonzero().squeeze(1)]: the indices where the mask holds, in
    increasing order. *)
Fixpoint nonzero_from (start : nat) (mask : list bool) : list nat :=
  match mask with
  | [] => []
  | b :: mask' =>
      if b then start :: nonzero_from (S start) mask'
      else nonzero_from (S start) mask'
  end.

Definition nonzero (mask : list bool) : list nat := nonzero_from 0 mask.

Fixpoint mapM {A B : Type} (f : A -> option B) (l : list A) : option (list B) :=
  match l with
  | [] => Some []
  | a :: l' => b <- f a ;; bs <- mapM f l' ;; Some (b :: bs)
  end.

(** [t[idx]] with an index tensor on the first axis: IndexError when an
    index is out of range. *)
Definition index_rows {A : Type} (t : list A) (idx : list nat) : option (list A) :=
  mapM (nth_error t) idx.

(** [t[rows, cols]] with two index tensors of the same length. *)
Definition index2 (t : Tensor2) (rows cols : list nat) : option (list R) :=
  mapM (fun rc => t2_get t (fst rc) (snd rc)) (combine rows cols).

Fixpoint list_set {A : Type} (l : list A) (i : nat) (v : A) : option (list A) :=
  match l, i with
  | [], _ => None
  | _ :: l', O => Some (v :: l')
  | a :: l', S i' => l'' <- list_set l' i' v ;; Some (a :: l'')
  end.

(** One assignment [t[i, j] = v]. *)
Definition t2_put (t : Tensor2) (i j : nat) (v : R) : option Tensor2 :=
  row <- nth_error (t2_rows t) i ;;
  row' <- list_set row j v ;;
  rows' <- list_set (t2_rows t) i row' ;;
  Some (mkTensor2 (t2_cols t) rows').

(** [t[rows, cols] = vals]: the assignments in order. *)
Fixpoint index_put2 (t : Tensor2) (ups : list (nat * nat * R)) : option Tensor2 :=
  match ups with
  | [] => Some t
  | (i, j, v) :: ups' => t' <- t2_put t i j v ;; index_put2 t' ups'
  end.

(** [(label >= 0) & (label < bg_class_ind)]: the foreground test, on one
    label and on a label tensor. *)
Definition is_fg (bg_class_ind : nat) (l : Z) : bool :=
  (0 <=? l)%Z && (l <? Z.of_nat bg_class_ind)%Z.

Definition fg_mask (bg_class_ind : nat) (labels : list Z) : list bool :=
  map (is_fg bg_class_ind) labels.

(** [torch.cat(ts, dim=0)]: a RuntimeError on the empty list. *)
Definition torch_cat {A : Type} (ts : list (list A)) : option (list A) :=
  match ts with
  | [] => None
  | _ => Some (concat ts)
  end.

Fixpoint chunks_fuel (fuel n : nat) (l : list R) : list (list R) :=
  match fuel with
  | O => []
  | S fuel' =>
      match l with
      | [] => []
      | _ => firstn n l :: chunks_fuel fuel' n (skipn n l)
      end
  end.

(** [t.view(-1, n)] of a contiguous tensor given by its elements in
    order: a RuntimeError when [n] is zero or does not divide the
    number of elements. *)
Definition view_rows (n : nat) (flat : list R) : option Tensor2 :=
  match n with
  | O => None
  | S _ =>
      if (length flat mod n =? 0)%nat
      then Some (mkTensor2 n (chunks_fuel (length flat) n flat))
      else None
  end.

(** ** The process group

    [utils.distributed_utils] and [torch.distributed] are read through a
    [World]: whether a process group is initialised, its size, and, for
    each collective still to come, what the other ranks contribute.  An
    [all_reduce] adds the other ranks' contributions to the local value
    and consumes one entry; with no entry left the collective never
    completes. *)

Record World : Type := mkWorld {
  is_dist_avail_and_initialized : bool;
  get_world_size : Z;
  pending : list (list R)
}.

(** Computations that read the process group and may raise. *)
Definition M (A : Type) : Type := World -> option (A * World).

Definition ret {A : Type} (a : A) : M A := fun w => Some (a, w).

Definition bindM {A B : Type} (c : M A) (k : A -> M B) : M B :=
  fun w =>
    match c w with
    | Some (a, w') => k a w'
    | None => None
    end.

Definition lift {A : Type} (o : option A) : M A :=
  fun w =>
    match o with
    | Some a => Some (a, w)
    | None => None
    end.

Notation "x <~ c ;; k" := (bindM c (fun x => k))
  (at level 61, c at next level, right associativity).

Definition all_reduce (x : R) : M R :=
  fun w =>
    match pending w with
    | [] => None
    | others :: rest =>
        Some (x + tsum others,
              mkWorld (is_dist_avail_and_initialized w) (get_world_size w) rest)
    end.

(** [t.clamp(lo)]: the minimum is the first positional parameter. *)
Definition clamp (x lo : R) : R := Rmax x lo.

(** ** Data of the criterion *)

Record Target : Type := mkTarget { labels : list Z; boxes : list Row4 }.

Record AssignedResult : Type := mkAssignedResult {
  assigned_labels : list Z;
  assigned_bboxes : list Row4;
  assign_metrics : list R
}.

(** A matcher called with [stride], [anchors], [pred_cls], [pred_box],
    [gt_labels], [gt_bboxes]. *)
Definition Assigner : Type :=
  list Z -> list Row2 -> list (list R) -> list Row4 -> list Z -> list Row4 ->
  AssignedResult.

#[local] Unset Elimination Schemes.

Inductive Outputs : Type := mkOutputs {
  pred_cls : list (list (list R));
  pred_reg : list (list Row4);
  pred_box : list (list Row4);
  stride : list Z;
  anchors : list Row2;
  stride_tensors : list R;
  aux_outputs : option Outputs
}.

#[local] Set Elimination Schemes.

Record MatcherHpy : Type := mkMatcherHpy {
  soft_center_radius : R;
  topk_candidates : Z
}.

Record MatcherCfg : Type := mkMatcherCfg { main : MatcherHpy; aux : MatcherHpy }.

Record Cfg : Type := mkCfg {
  cfg_loss_cls_weight : R;
  cfg_loss_box_weight : R;
  cfg_matcher_hpy : MatcherCfg
}.

Record Args : Type := mkArgs { args_max_epoch : Z; args_no_aug_epoch : Z }.

Record Criterion : Type := mkCriterion {
  args : Args;
  cfg : Cfg;
  device : string;
  num_classes : nat;
  max_epoch : Z;
  no_aug_epoch : Z;
  aux_bbox_loss : bool;
  loss_cls_weight : R;
  loss_box_weight : R;
  matcher_hpy : MatcherHpy;
  matcher : Assigner;
  aux_matcher_hpy : MatcherHpy;
  aux_matcher : Assigner
}.

(** ** What the criterion imports

    The torch kernels, applied to one element, and the two helpers of
    the repository whose files are not part of the sources:
    [utils.box_ops.get_ious] (on one pair of boxes, with its [box_mode]
    and [iou_type]) and the matcher class [AlignedSimOTA] (its
    constructor, from [soft_center_radius], [topk_candidates] and
    [num_classes]). *)

Class Externals : Type := mkExternals {
  sigmoid : R -> R;
  binary_cross_entropy_with_logits : R -> R -> R;
  tensor_pow : R -> R -> R;
  torch_log : R -> R;
  get_ious : Row4 -> Row4 -> string -> string -> R;
  AlignedSimOTA : R -> Z -> nat -> Assigner
}.

Section Model.

Context {ext : Externals}.

Definition Criterion_init (a : Args) (c : Cfg) (dev : string) (n : nat) : Criterion :=
  let matcher_hpy := main (cfg_matcher_hpy c) in
  let aux_matcher_hpy := aux (cfg_matcher_hpy c) in
  mkCriterion a c dev n (args_max_epoch a) (args_no_aug_epoch a) false
    (cfg_loss_cls_weight c) (cfg_loss_box_weight c)
    matcher_hpy
    (AlignedSimOTA (soft_center_radius matcher_hpy)
                   (topk_candidates matcher_hpy) n)
    aux_matcher_hpy
    (AlignedSimOTA (soft_center_radius aux_matcher_hpy)
                   (topk_candidates aux_matcher_hpy) n).

(** *** Basic loss functions *)

Definition loss_classes (pred_cls : Tensor2) (target : list Z * list R)
    (beta : R) : option Tensor2 :=
  let '(label, score) := target in
  let pred_sigmoid := t2_map sigmoid pred_cls in
  let scale_factor := pred_sigmoid in
  let zerolabel := t2_new_zeros scale_factor in
  let ce_loss :=
    t2_map2 Rmult
      (t2_map2 binary_cross_entropy_with_logits pred_cls zerolabel)
      (t2_map (fun s => tensor_pow s beta) scale_factor) in
  let bg_class_ind := t2_cols pred_cls in
  let pos := nonzero (fg_mask bg_class_ind label) in
  pos_label <- index_rows label pos ;;
  let pos_label := map Z.to_nat pos_label in
  score_pos <- index_rows score pos ;;
  sig_pos <- index2 pred_sigmoid pos pos_label ;;
  let scale_factor := map2 Rminus score_pos sig_pos in
  pred_pos <- index2 pred_cls pos pos_label ;;
  let vals :=
    map2 Rmult
      (map2 binary_cross_entropy_with_logits pred_pos score_pos)
      (map (fun s => tensor_pow (Rabs s) beta) scale_factor) in
  index_put2 ce_loss (combine (combine pos pos_label) vals).

Definition loss_bboxes (pred_box gt_box : list Row4) : list R :=
  let ious := map2 (fun p g => get_ious p g "xyxy" "giou") pred_box gt_box in
  let loss_box := map (fun iou => 1.0 - iou) ious in
  loss_box.

(** [F.l1_loss(a, b, reduction='none')] on one row. *)
Definition l1_loss (a b : Row4) : Row4 :=
  mkRow4 (Rabs (r4_0 a - r4_0 b)) (Rabs (r4_1 a - r4_1 b))
         (Rabs (r4_2 a - r4_2 b)) (Rabs (r4_3 a - r4_3 b)).

Definition loss_bboxes_aux (pred_reg gt_box : list Row4) (anchors : list Row2)
    (stride_tensors : list R) : list Row4 :=
  let gt_cxcy := map (fun g => row2_scale (row2_add (lo2 g) (hi2 g)) 0.5) gt_box in
  let gt_bwbh := map (fun g => row2_sub (hi2 g) (lo2 g)) gt_box in
  let gt_cxcy_encode := map2 row2_div (map2 row2_sub gt_cxcy anchors) stride_tensors in
  let gt_bwbh_encode :=
    map (row2_map torch_log) (map2 row2_div gt_bwbh stride_tensors) in
  let gt_box_encode := map2 cat2 gt_cxcy_encode gt_bwbh_encode in
  let loss_box_aux := map2 l1_loss pred_reg gt_box_encode in
  loss_box_aux.

(** *** Task loss functions *)

(** [dict(k1 = v1, ...)]. *)
Definition dict_of (kvs : list (string * R)) : Dict :=
  fold_left (fun d kv => dict_set d (fst kv) (snd kv)) kvs [].

(** The label assignment of one image of the batch (the body of the
    loop over [range(bs)]). *)
Definition assign_image (self : Criterion) (outputs : Outputs)
    (targets : list Target) (aux_loss : PyArg) (batch_idx : nat)
    : option AssignedResult :=
  tgt <- nth_error targets batch_idx ;;
  let tgt_labels := labels tgt in
  let tgt_bboxes := boxes tgt in
  cls_pred <- nth_error (pred_cls outputs) batch_idx ;;
  box_pred <- nth_error (pred_box outputs) batch_idx ;;
  if negb (truthy aux_loss)
  then Some (matcher self (stride outputs) (anchors outputs)
                     cls_pred box_pred tgt_labels tgt_bboxes)
  else Some (aux_matcher self (stride outputs) (anchors outputs)
                         cls_pred box_pred tgt_labels tgt_bboxes).

(** The label assignment of the whole batch and the concatenation of
    its results along the anchor axis: [cls_targets], [box_targets],
    [assign_metrics]. *)
Definition assign_batch (self : Criterion) (outputs : Outputs)
    (targets : list Target) (aux_loss : PyArg)
    : option (list Z * list Row4 * list R) :=
  let bs := length (pred_cls outputs) in
  results <- mapM (assign_image self outputs targets aux_loss) (seq 0 bs) ;;
  cls_targets <- torch_cat (map assigned_labels results) ;;
  box_targets <- torch_cat (map assigned_bboxes results) ;;
  assign_metrics <- torch_cat (map assign_metrics results) ;;
  Some (cls_targets, box_targets, assign_metrics).

(** The foreground normalisation: [num_fgs] from the concatenated
    [assign_metrics]. *)
Definition normalize_num_fgs (assign_metrics : list R) : M R :=
  let num_fgs := tsum assign_metrics in
  fun w =>
    (num_fgs <~ (if is_dist_avail_and_initialized w
                 then all_reduce num_fgs
                 else ret num_fgs) ;;
     ret (clamp (num_fgs / IZR (get_world_size w)) 1.0)) w.

(** The auxiliary regression loss on the foreground anchors, summed. *)
Definition aux_regression_sum (outputs : Outputs) (pos_inds : list nat)
    (box_targets_pos : list Row4) : option R :=
  let bs := length (pred_cls outputs) in
  reg_preds_pos <- index_rows (concat (pred_reg outputs)) pos_inds ;;
  let anchors_tensors := concat (repeat (anchors outputs) bs) in
  anchors_tensors_pos <- index_rows anchors_tensors pos_inds ;;
  let stride_tensors := concat (repeat (stride_tensors outputs) bs) in
  stride_tensors_pos <- index_rows stride_tensors pos_inds ;;
  let loss_box_aux :=
    loss_bboxes_aux reg_preds_pos box_targets_pos
                    anchors_tensors_pos stride_tensors_pos in
  Some (tsum (map row4_sum loss_box_aux)).

(** [compute_loss(outputs, targets, aux_loss=False, epoch=0)].  In the
    source [loss_box_aux] starts as [None] and is set under the epoch
    test; the dictionary is then chosen by [loss_box_aux is None], that
    is by the same test. *)
Definition compute_loss (self : Criterion) (outputs : Outputs)
    (targets : list Target) (aux_loss : PyArg) (epoch : Z) : M Dict :=
  let cls_preds := pred_cls outputs in
  let box_preds := pred_box outputs in
  (* label assignment *)
  assigned <~ lift (assign_batch self outputs targets aux_loss) ;;
  let '(cls_targets, box_targets, assign_metrics) := assigned in
  let bg_class_ind := num_classes self in
  let pos_inds := nonzero (fg_mask bg_class_ind cls_targets) in
  num_fgs <~ normalize_num_fgs assign_metrics ;;
  (* classification loss *)
  cls_preds <~ lift (view_rows (num_classes self) (concat (concat cls_preds))) ;;
  loss_cls <~ lift (loss_classes cls_preds (cls_targets, assign_metrics) 2.0) ;;
  let loss_cls := t2_sum loss_cls / num_fgs in
  (* regression loss *)
  box_preds_pos <~ lift (index_rows (concat box_preds) pos_inds) ;;
  box_targets_pos <~ lift (index_rows box_targets pos_inds) ;;
  let loss_box := loss_bboxes box_preds_pos box_targets_pos in
  let loss_box := tsum loss_box / num_fgs in
  (* total loss *)
  let losses := loss_cls_weight self * loss_cls + loss_box_weight self * loss_box in
  (* aux regression loss *)
  if (epoch >=? max_epoch self - no_aug_epoch self - 1)%Z
  then
    loss_box_aux <~ lift (aux_regression_sum outputs pos_inds box_targets_pos) ;;
    let loss_box_aux := loss_box_aux / num_fgs in
    let losses := losses + loss_box_aux in
    ret (dict_of [("loss_cls", loss_cls); ("loss_box", loss_box);
                  ("loss_box_aux", loss_box_aux); ("losses", losses)])
  else
    ret (dict_of [("loss_cls", loss_cls); ("loss_box", loss_box);
                  ("losses", losses)]).

(** The two loops of [__call__] that copy a branch's entries: every key
    but ['losses'] goes to [rename k]. *)
Definition copy_entry (rename : string -> string) (src loss_dict : Dict)
    (k : string) : Dict :=
  if negb (String.eqb k "losses")
  then match dict_get src k with
       | Some v => dict_set loss_dict (rename k) v
       | None => loss_dict
       end
  else loss_dict.

Definition copy_entries (rename : string -> string) (src dst : Dict) : Dict :=
  fold_left (copy_entry rename src) (dict_keys src) dst.

(** [Criterion.__call__]: [epoch] is passed to [compute_loss] in third
    position, which is the parameter [aux_loss]; the parameter [epoch]
    of [compute_loss] keeps its default 0. *)
Definition Criterion_call (self : Criterion) (outputs : Outputs)
    (targets : list Target) (epoch : Z) : M Dict :=
  (* main loss *)
  main_loss_dict <~ compute_loss self outputs targets (PyInt epoch) 0 ;;
  (* aux loss *)
  aux_o <~ lift (aux_outputs outputs) ;;
  aux_loss_dict <~ compute_loss self aux_o targets (PyInt epoch) 0 ;;
  (* reformat loss dict *)
  let loss_dict := [] in
  main_losses <~ lift (dict_get main_loss_dict "losses") ;;
  aux_losses <~ lift (dict_get aux_loss_dict "losses") ;;
  let loss_dict := dict_set loss_dict "losses" (main_losses + aux_losses) in
  let loss_dict := copy_entries (fun k => k) main_loss_dict loss_dict in
  let loss_dict :=
    copy_entries (fun k => (k ++ "_aux")%string) aux_loss_dict loss_dict in
  ret loss_dict.

Definition build_criterion (a : Args) (c : Cfg) (dev : string) (n : nat)
    : Criterion :=
  let criterion := Criterion_init a c dev n in
  criterion.

End Model.

(** ** The criterion step of [build_e2eyolo]

    [models/detectors/e2eyolo/build.py] binds [build_criterion] with
    [from .loss import build_criterion]: the function of the package's
    own [loss] module, whose file is not part of the sources (it is not
    the [build_criterion] above, which is that of
    [models/detectors/ctrnet/loss.py]).  What the call needs of it is
    its parameter list. *)

Record Signature : Type := mkSignature {
  required : nat;        (* parameters without a default *)
  optional : nat;        (* parameters with a default *)
  var_positional : bool  (* a [*args] parameter *)
}.

(** A call with [nargs] positional arguments and no keyword binds, or
    raises TypeError. *)
Definition accepts (sig : Signature) (nargs : nat) : bool :=
  (required sig <=? nargs)%nat &&
  (var_positional sig || (nargs <=? required sig + optional sig)%nat).

(** [def build_criterion(args, cfg, device, num_classes)] of
    [ctrnet/loss.py]. *)
Definition ctrnet_build_criterion_signature : Signature := mkSignature 4 0 false.

(** The last lines of [build_e2eyolo], after [model] is built and
    initialised: [imported] is the signature of the imported
    [build_criterion] and [built] what it returns for
    [(cfg, device, num_classes)]. *)
Definition build_e2eyolo_criterion {Model Crit : Type} (model : Model)
    (imported : Signature) (built : Crit) (trainable : bool)
    : option (Model * option Crit) :=
  let criterion := None in
  if trainable
  then
    if accepts imported 3
    then Some (model, Some built)
    else None
  else Some (model, criterion).

(** ** The initialisation in [build_e2eyolo]

    The detector class [E2EYOLO] is not part of the sources; what
    [build_e2eyolo] uses of a constructed detector is its modules and
    its three lists of prediction layers.  The layers of the lists are
    modules of the detector: a list holds positions among the modules,
    so that a layer held by two lists is one object. *)

Inductive ModuleKind : Type := BatchNorm2d | OtherModule.

Record TorchModule : Type := mkModule {
  kind : ModuleKind;
  eps : R;
  momentum : R;
  bias : option (list R);   (* [None]: a layer built without bias *)
  weight : list R
}.

Record E2EYOLO : Type := mkE2EYOLO {
  modules : list TorchModule;
  obj_preds : list nat;
  cls_preds : list nat;
  reg_preds : list nat
}.

(** The body of the loop over [model.modules()]. *)
Definition init_batchnorm (m : TorchModule) : TorchModule :=
  match kind m with
  | BatchNorm2d => mkModule (kind m) 1e-3 0.03 (bias m) (weight m)
  | OtherModule => m
  end.

(** [b = layer.bias.view(1, -1); b.data.fill_(value);
    layer.bias = Parameter(b.view(-1))]: an AttributeError when the
    layer has no bias. *)
Definition fill_bias (value : R) (m : TorchModule) : option TorchModule :=
  b <- bias m ;;
  Some (mkModule (kind m) (eps m) (momentum m)
                 (Some (repeat value (length b))) (weight m)).

(** [w = layer.weight; w.data.fill_(value); layer.weight = Parameter(w)]. *)
Definition fill_weight (value : R) (m : TorchModule) : TorchModule :=
  mkModule (kind m) (eps m) (momentum m) (bias m)
           (repeat value (length (weight m))).

(** A loop over a list of prediction layers, updating each in place. *)
Fixpoint for_each_layer (body : TorchModule -> option TorchModule)
    (layers : list nat) (ms : list TorchModule) : option (list TorchModule) :=
  match layers with
  | [] => Some ms
  | i :: layers' =>
      m <- nth_error ms i ;;
      m' <- body m ;;
      ms' <- list_set ms i m' ;;
      for_each_layer body layers' ms'
  end.

Section Build.

Context {ext : Externals}.

Definition init_prob : R := 0.01.

Definition bias_value : R := - torch_log ((1.0 - init_prob) / init_prob).

(** [build_e2eyolo], from the constructed detector on: [imported] is the
    signature of the imported [build_criterion] and [built] what it
    returns for [(cfg, device, num_classes)]. *)
Definition build_e2eyolo {Crit : Type} (model : E2EYOLO)
    (imported : Signature) (built : Crit) (trainable : bool)
    : option (E2EYOLO * option Crit) :=
  (* initialize YOLO *)
  let ms := map init_batchnorm (modules model) in
  (* init head: obj pred, cls pred, reg pred *)
  ms <- for_each_layer (fill_bias bias_value) (obj_preds model) ms ;;
  ms <- for_each_layer (fill_bias bias_value) (cls_preds model) ms ;;
  ms <- for_each_layer
          (fun m => m' <- fill_bias 1.0 m ;; Some (fill_weight 0 m'))
          (reg_preds model) ms ;;
  let model :=
    mkE2EYOLO ms (obj_preds model) (cls_preds model) (reg_preds model) in
  (* build criterion *)
  build_e2eyolo_criterion model imported built trainable.

End Build.

(** A detector of four modules: a batch normalisation and one
    prediction layer of each kind. *)
Definition example_model : E2EYOLO :=
  mkE2EYOLO
    [mkModule BatchNorm2d 1e-5 0.1 (Some [1; 1]) [1; 1];
     mkModule OtherModule 0 0 (Some [0]) [1; 2];
     mkModule OtherModule 0 0 (Some [0; 0]) [3; 4];
     mkModule OtherModule 0 0 (Some [0; 0; 0; 0]) [5; 6; 7; 8]]
    [1%nat] [2%nat] [3%nat].

Definition has_bias (m : TorchModule) : bool :=
  match bias m with
  | Some _ => true
  | None => false
  end.

(** What the two loop bodies make of a layer that has a bias. *)
Definition with_bias_filled (value : R) (m : TorchModule) : TorchModule :=
  match bias m with
  | Some b => mkModule (kind m) (eps m) (momentum m)
                       (Some (repeat value (length b))) (weight m)
  | None => m
  end.

Definition reg_pred_initialised (m : TorchModule) : TorchModule :=
  match bias m with
  | Some b => fill_weight 0 (with_bias_filled 1.0 m)
  | None => m
  end.

(** ** Statements

    The closed forms the properties below compare the code with. *)

Section Statements.

Context {ext : Externals}.

(** The entry of the quality focal loss at class channel [j] of an
    anchor with logit [x] at that channel, assigned label [l] and quality
    score [s], on a tensor of [n_cls] channels. *)
Definition quality_focal_entry (beta : R) (n_cls : nat) (x : R) (l : Z) (s : R)
    (j : nat) : R :=
  if is_fg n_cls l && (Z.to_nat l =? j)%nat
  then binary_cross_entropy_with_logits x s * tensor_pow (Rabs (s - sigmoid x)) beta
  else binary_cross_entropy_with_logits x 0 * tensor_pow (sigmoid x) beta.

(** The anchor-relative, stride-normalised encoding of a ground-truth
    box: centre offset over stride, then log of size over stride. *)
Definition encoded_target (gt_xyxy : Row4) (anchor : Row2) (stride : R) : Row4 :=
  let gt_center := mkRow2 ((r4_0 gt_xyxy + r4_2 gt_xyxy) / 2)
                          ((r4_1 gt_xyxy + r4_3 gt_xyxy) / 2) in
  let gt_size := mkRow2 (r4_2 gt_xyxy - r4_0 gt_xyxy)
                        (r4_3 gt_xyxy - r4_1 gt_xyxy) in
  mkRow4 ((r2_0 gt_center - r2_0 anchor) / stride)
         ((r2_1 gt_center - r2_1 anchor) / stride)
         (torch_log (r2_0 gt_size / stride))
         (torch_log (r2_1 gt_size / stride)).

(** The box loss one anchor of the flattened batch contributes: the
    GIoU loss of its predicted box against its assigned box when it is
    foreground, nothing when it is background. *)
Definition box_loss_of_anchor (n_cls : nat) (cls_targets : list Z)
    (box_preds box_targets : list Row4) (i : nat) : R :=
  if is_fg n_cls (nth i cls_targets (Z.of_nat n_cls))
  then 1.0 - get_ious (nth i box_preds (mkRow4 0 0 0 0))
                      (nth i box_targets (mkRow4 0 0 0 0)) "xyxy" "giou"
  else 0.

End Statements.

(** A criterion whose attribute [matcher] (resp. [aux_matcher]) has been
    rebound after construction: [criterion.matcher = m]. *)
Definition with_matcher (self : Criterion) (m : Assigner) : Criterion :=
  mkCriterion (args self) (cfg self) (device self) (num_classes self)
    (max_epoch self) (no_aug_epoch self) (aux_bbox_loss self)
    (loss_cls_weight self) (loss_box_weight self)
    (matcher_hpy self) m (aux_matcher_hpy self) (aux_matcher self).

Definition with_aux_matcher (self : Criterion) (m : Assigner) : Criterion :=
  mkCriterion (args self) (cfg self) (device self) (num_classes self)
    (max_epoch self) (no_aug_epoch self) (aux_bbox_loss self)
    (loss_cls_weight self) (loss_box_weight self)
    (matcher_hpy self) (matcher self) (aux_matcher_hpy self) m.

(** An assigned box with a positive width and a positive height. *)
Definition proper_box (b : Row4) : Prop :=
  r4_0 b < r4_2 b /\ r4_1 b < r4_3 b.

(** The foreground mass summed over all processes: the local sum of the
    assignment metrics, plus what the other ranks contribute to the
    coming collective when a process group is initialised. *)
Definition all_processes_mass (assign_metrics : list R) (w : World) : R :=
  if is_dist_avail_and_initialized w
  then tsum assign_metrics + tsum (hd [] (pending w))
  else tsum assign_metrics.

(** The shape contract between the concatenated assignment and the
    predictions of a batch: one label, one assigned box, one metric, one
    row of [num_classes] logits, one predicted box, one raw regression
    row, one anchor point and one stride per anchor of the batch. *)
Definition aligned_batch (self : Criterion) (outputs : Outputs)
    (cls_targets : list Z) (box_targets : list Row4) (metrics : list R) : Prop :=
  let n := length cls_targets in
  let bs := length (pred_cls outputs) in
  (0 < num_classes self)%nat /\
  length box_targets = n /\
  length metrics = n /\
  length (concat (pred_cls outputs)) = n /\
  Forall (fun row => length row = num_classes self) (concat (pred_cls outputs)) /\
  length (concat (pred_box outputs)) = n /\
  length (concat (pred_reg outputs)) = n /\
  length (concat (repeat (anchors outputs) bs)) = n /\
  length (concat (repeat (stride_tensors outputs) bs)) = n.

(** ** The box metric of the spec

    Modelled from the spec: [utils/box_ops.py] ([get_ious]) is not part of
    the sources.  The spec names the metric, GIoU (the IoU of the two
    boxes minus the share of their smallest enclosing box that their
    union leaves empty), and gives its value where the quotients say
    nothing: identical boxes have GIoU 1 (loss 0), and two boxes with IoU
    0 and a degenerate enclosing area have loss 1, so that a quotient by
    an area of 0 contributes 0. *)
Definition box_area (b : Row4) : R :=
  Rmax (r4_2 b - r4_0 b) 0 * Rmax (r4_3 b - r4_1 b) 0.

Definition intersect_area (b1 b2 : Row4) : R :=
  Rmax (Rmin (r4_2 b1) (r4_2 b2) - Rmax (r4_0 b1) (r4_0 b2)) 0 *
  Rmax (Rmin (r4_3 b1) (r4_3 b2) - Rmax (r4_1 b1) (r4_1 b2)) 0.

Definition enclose_area (b1 b2 : Row4) : R :=
  (Rmax (r4_2 b1) (r4_2 b2) - Rmin (r4_0 b1) (r4_0 b2)) *
  (Rmax (r4_3 b1) (r4_3 b2) - Rmin (r4_1 b1) (r4_1 b2)).

Definition same_box (b1 b2 : Row4) : bool :=
  if Req_EM_T (r4_0 b1) (r4_0 b2) then
    if Req_EM_T (r4_1 b1) (r4_1 b2) then
      if Req_EM_T (r4_2 b1) (r4_2 b2) then
        if Req_EM_T (r4_3 b1) (r4_3 b2) then true else false
      else false
    else false
  else false.

(** A quotient of areas; a degenerate normalisation contributes 0. *)
Definition area_ratio (a by_area : R) : R :=
  if Req_EM_T by_area 0 then 0 else a / by_area.

Definition giou_quotients (b1 b2 : Row4) : R :=
  let area_union := box_area b1 + box_area b2 - intersect_area b1 b2 in
  let ious := area_ratio (intersect_area b1 b2) area_union in
  ious - area_ratio (enclose_area b1 b2 - area_union) (enclose_area b1 b2).

Definition giou_xyxy (b1 b2 : Row4) : R :=
  if same_box b1 b2 then 1 else giou_quotients b1 b2.

(** ** A concrete instance

    The torch kernels over the reals, the box metric of the spec, and a
    stand-in for the matcher, used to run the criterion on concrete
    batches. *)

Definition real_sigmoid (x : R) : R := 1 / (1 + exp (- x)).

Definition real_bce_with_logits (x t : R) : R := (1 - t) * x + ln (1 + exp (- x)).

(** [x.pow(b)] on the non-negative bases and positive exponents the
    criterion uses. *)
Definition real_pow (x b : R) : R := if Req_EM_T x 0 then 0 else Rpower x b.

Definition spec_get_ious (b1 b2 : Row4) (box_mode iou_type : string) : R :=
  giou_xyxy b1 b2.

(** A stand-in for [AlignedSimOTA]: the first [topk_candidates] anchors
    are assigned to the first ground-truth object with quality 1/2, all
    other anchors are background (label [num_classes], quality 0). *)
Definition first_anchors_matcher (soft_center_radius : R) (topk_candidates : Z)
    (num_classes : nat) : Assigner :=
  fun _ _ pred_cls _ gt_labels gt_bboxes =>
    let m := length pred_cls in
    match gt_labels, gt_bboxes with
    | l :: _, b :: _ =>
        let k := Nat.min (Z.to_nat topk_candidates) m in
        mkAssignedResult
          (repeat l k ++ repeat (Z.of_nat num_classes) (m - k))
          (repeat b m)
          (repeat (1 / 2) k ++ repeat 0 (m - k))
    | _, _ =>
        mkAssignedResult (repeat (Z.of_nat num_classes) m)
                         (repeat (mkRow4 0 0 0 0) m) (repeat 0 m)
    end.

Definition example_ext : Externals :=
  mkExternals real_sigmoid real_bce_with_logits real_pow ln spec_get_ious
              first_anchors_matcher.

(** A criterion for two classes, 300 epochs of which the last 20 without
    augmentation; the main matcher keeps one candidate, the auxiliary
    matcher two. *)
Definition example_cfg : Cfg :=
  mkCfg 1 2 (mkMatcherCfg (mkMatcherHpy 3 1) (mkMatcherHpy 3 2)).

Definition example_args : Args := mkArgs 300 20.

Definition example_criterion : Criterion :=
  build_criterion (ext := example_ext) example_args example_cfg "cpu" 2.

(** A batch of one image with two anchors and one ground-truth object of
    class 0; the auxiliary head predicts the same. *)
Definition example_box : Row4 := mkRow4 0 0 2 2.

Definition example_aux_outputs : Outputs :=
  mkOutputs [[[0; 0]; [0; 0]]]
            [[mkRow4 0 0 0 0; mkRow4 0 0 0 0]]
            [[mkRow4 0 0 1 1; mkRow4 0 0 2 1]]
            [8%Z] [mkRow2 4 4; mkRow2 12 4] [8; 8] None.

Definition example_outputs : Outputs :=
  mkOutputs [[[0; 0]; [0; 0]]]
            [[mkRow4 0 0 0 0; mkRow4 0 0 0 0]]
            [[mkRow4 0 0 1 1; mkRow4 0 0 2 1]]
            [8%Z] [mkRow2 4 4; mkRow2 12 4] [8; 8] (Some example_aux_outputs).

Definition example_targets : list Target := [mkTarget [0%Z] [example_box]].

Definition single_process : World := mkWorld false 1 [].

(** Two processes: the other rank contributes a mass of 5 to each of
    the two collectives of a step. *)
Definition two_processes : World := mkWorld true 2 [[5]; [5]].

(** Running the criterion: everything but the arithmetic of the reals
    is computed. *)
Ltac run_criterion :=
  lazy -[Rplus Rmult Rminus Rdiv Ropp Rinv Rmax Rmin Rabs IZR INR ln exp Rpower
         real_sigmoid real_bce_with_logits real_pow giou_xyxy];
  reflexivity.

(** * Properties *)

(** ** Exceptions *)

Lemma bind_Some {A B : Type} (c : option A) (k : A -> option B) (b : B) :
  bind c k = Some b -> exists a, c = Some a /\ k a = Some b.
Proof.
  destruct c as [a|]; simpl; intros H.
  - exists a. split; [reflexivity | exact H].
  - discriminate H.
Qed.

Lemma bindM_Some {A B : Type} (c : M A) (k : A -> M B) (w w' : World) (b : B) :
  bindM c k w = Some (b, w') ->
  exists a w1, c w = Some (a, w1) /\ k a w1 = Some (b, w').
Proof.
  unfold bindM. destruct (c w) as [[a w1]|]; intros H.
  - exists a, w1. split; [reflexivity | exact H].
  - discriminate H.
Qed.

Lemma lift_Some {A : Type} (o : option A) (w w' : World) (a : A) :
  lift o w = Some (a, w') -> o = Some a /\ w' = w.
Proof.
  unfold lift. destruct o as [a0|]; intros H; [|discriminate H].
  injection H as -> ->. split; reflexivity.
Qed.

Lemma ret_Some {A : Type} (a b : A) (w w' : World) :
  ret a w = Some (b, w') -> b = a /\ w' = w.
Proof.
  unfold ret. intros H. injection H as -> ->. split; reflexivity.
Qed.

(** ** Dictionaries *)

Lemma dict_get_set_same (d : Dict) (k : string) (v : R) :
  dict_get (dict_set d k v) k = Some v.
Proof.
  induction d as [|[k' v'] d IH]; simpl.
  - now rewrite String.eqb_refl.
  - destruct (String.eqb k' k) eqn:E; simpl.
    + now rewrite String.eqb_refl.
    + now rewrite E.
Qed.

Lemma dict_get_set_other (d : Dict) (k k0 : string) (v : R) :
  k <> k0 -> dict_get (dict_set d k v) k0 = dict_get d k0.
Proof.
  intros Hne. induction d as [|[k' v'] d IH]; simpl.
  - destruct (String.eqb k k0) eqn:E; [|reflexivity].
    apply String.eqb_eq in E. contradiction.
  - destruct (String.eqb k' k) eqn:E; simpl.
    + apply String.eqb_eq in E. subst k'.
      destruct (String.eqb k k0) eqn:E0; [|reflexivity].
      apply String.eqb_eq in E0. contradiction.
    + now rewrite IH.
Qed.

Lemma dict_get_In_keys (d : Dict) (k : string) (v : R) :
  dict_get d k = Some v -> In k (dict_keys d).
Proof.
  induction d as [|[k' v'] d IH]; simpl; [discriminate|].
  destruct (String.eqb k' k) eqn:E.
  - apply String.eqb_eq in E. now left.
  - intros H. right. now apply IH.
Qed.

Lemma dict_In_keys_get (d : Dict) (k : string) :
  In k (dict_keys d) -> exists v, dict_get d k = Some v.
Proof.
  induction d as [|[k' v'] d IH]; simpl; [contradiction|].
  intros [->|Hin].
  - rewrite String.eqb_refl. now exists v'.
  - destruct (String.eqb k' k); [now exists v'|]. now apply IH.
Qed.

Lemma dict_set_keeps_keys (d : Dict) (k k0 : string) (v : R) :
  In k0 (dict_keys d) -> In k0 (dict_keys (dict_set d k v)).
Proof.
  intros Hin. apply dict_In_keys_get in Hin as [v0 Hv0].
  destruct (String.eqb k k0) eqn:E.
  - apply String.eqb_eq in E. subst k0.
    eapply dict_get_In_keys. apply dict_get_set_same.
  - apply String.eqb_neq in E.
    eapply dict_get_In_keys. rewrite dict_get_set_other by exact E. exact Hv0.
Qed.

(** ** Keys with a suffix *)

Lemma string_length_append (s t : string) :
  String.length (s ++ t)%string = (String.length s + String.length t)%nat.
Proof.
  induction s as [|c s IH]; simpl; [reflexivity | now rewrite IH].
Qed.

Lemma string_append_inj_l (s1 s2 t : string) :
  (s1 ++ t)%string = (s2 ++ t)%string -> s1 = s2.
Proof.
  revert s2. induction s1 as [|c1 s1 IH]; intros [|c2 s2] H; simpl in H.
  - reflexivity.
  - apply (f_equal String.length) in H. simpl in H.
    rewrite string_length_append in H. lia.
  - apply (f_equal String.length) in H. simpl in H.
    rewrite string_length_append in H. lia.
  - injection H as -> H. f_equal. now apply IH.
Qed.

Lemma suffixed_key_not_losses (k : string) : (k ++ "_aux")%string <> "losses".
Proof.
  intros H. apply (f_equal String.length) in H as Hlen.
  rewrite string_length_append in Hlen. simpl in Hlen.
  destruct k as [|a [|b [|c k]]]; simpl in *; try lia.
  discriminate H.
Qed.

(** ** The copy loops of [__call__] *)

Section CopyEntries.

Variable rename : string -> string.
Variable src : Dict.

Lemma copy_loop_untouched (ks : list string) (dst : Dict) (k0 : string) :
  (forall k, In k ks -> k <> "losses" -> rename k <> k0) ->
  dict_get (fold_left (copy_entry rename src) ks dst) k0 = dict_get dst k0.
Proof.
  revert dst. induction ks as [|k ks IH]; intros dst Hfresh; simpl; [reflexivity|].
  rewrite IH by (intros k' Hin; apply Hfresh; now right).
  unfold copy_entry. destruct (String.eqb k "losses") eqn:E; simpl; [reflexivity|].
  destruct (dict_get src k) as [v|]; [|reflexivity].
  apply dict_get_set_other. apply Hfresh; [now left|].
  now apply String.eqb_neq.
Qed.

Lemma copy_loop_keeps_keys (ks : list string) (dst : Dict) (k0 : string) :
  In k0 (dict_keys dst) -> In k0 (dict_keys (fold_left (copy_entry rename src) ks dst)).
Proof.
  revert dst. induction ks as [|k ks IH]; intros dst Hin; simpl; [exact Hin|].
  apply IH. unfold copy_entry.
  destruct (negb (String.eqb k "losses")); [|exact Hin].
  destruct (dict_get src k) as [v|]; [|exact Hin].
  now apply dict_set_keeps_keys.
Qed.

Hypothesis rename_inj : forall k1 k2, rename k1 = rename k2 -> k1 = k2.

Lemma copy_loop_copied (ks : list string) (dst : Dict) (k : string) (v : R) :
  In k ks -> k <> "losses" -> dict_get src k = Some v ->
  dict_get (fold_left (copy_entry rename src) ks dst) (rename k) = Some v.
Proof.
  revert dst. induction ks as [|k1 ks IH]; intros dst Hin Hne Hv; [contradiction|].
  simpl. destruct (in_dec string_dec k ks) as [Hin'|Hnotin].
  - now apply IH.
  - destruct Hin as [->|Hin]; [|contradiction].
    rewrite copy_loop_untouched.
    + unfold copy_entry. apply String.eqb_neq in Hne. rewrite Hne. simpl.
      rewrite Hv. apply dict_get_set_same.
    + intros k' Hk' _ Heq. apply rename_inj in Heq. now subst k'.
Qed.

End CopyEntries.

Lemma copy_entries_copied (rename : string -> string) (src dst : Dict)
    (k : string) (v : R) :
  (forall k1 k2, rename k1 = rename k2 -> k1 = k2) ->
  k <> "losses" -> dict_get src k = Some v ->
  dict_get (copy_entries rename src dst) (rename k) = Some v.
Proof.
  intros Hinj Hne Hv. unfold copy_entries.
  apply (copy_loop_copied rename src Hinj); try assumption.
  eapply dict_get_In_keys. exact Hv.
Qed.

Lemma copy_entries_untouched (rename : string -> string) (src dst : Dict)
    (k0 : string) :
  (forall k, In k (dict_keys src) -> k <> "losses" -> rename k <> k0) ->
  dict_get (copy_entries rename src dst) k0 = dict_get dst k0.
Proof.
  intros H. unfold copy_entries. now apply (copy_loop_untouched rename src).
Qed.

Lemma copy_entries_keeps_keys (rename : string -> string) (src dst : Dict)
    (k0 : string) :
  In k0 (dict_keys dst) -> In k0 (dict_keys (copy_entries rename src dst)).
Proof.
  intros H. unfold copy_entries. now apply (copy_loop_keeps_keys rename src).
Qed.

Section CallProperties.

Context {ext : Externals}.

(** What [__call__] does, step by step, when it returns. *)
Lemma Criterion_call_inv (self : Criterion) (outputs : Outputs)
    (targets : list Target) (epoch : Z) (w w' : World) (d : Dict) :
  Criterion_call self outputs targets epoch w = Some (d, w') ->
  exists main_loss_dict w1 aux_o aux_loss_dict main_losses aux_losses,
    compute_loss self outputs targets (PyInt epoch) 0 w = Some (main_loss_dict, w1) /\
    aux_outputs outputs = Some aux_o /\
    compute_loss self aux_o targets (PyInt epoch) 0 w1 = Some (aux_loss_dict, w') /\
    dict_get main_loss_dict "losses" = Some main_losses /\
    dict_get aux_loss_dict "losses" = Some aux_losses /\
    d = copy_entries (fun k => (k ++ "_aux")%string) aux_loss_dict
          (copy_entries (fun k => k) main_loss_dict
             (dict_set [] "losses" (main_losses + aux_losses))).
Proof.
  unfold Criterion_call. intros H.
  apply bindM_Some in H as (md & w1 & Hmain & H).
  apply bindM_Some in H as (aux_o & w2 & Haux_o & H).
  apply lift_Some in Haux_o as [Haux_o ->].
  apply bindM_Some in H as (ad & w3 & Haux & H).
  apply bindM_Some in H as (ml & w4 & Hml & H).
  apply lift_Some in Hml as [Hml ->].
  apply bindM_Some in H as (al & w5 & Hal & H).
  apply lift_Some in Hal as [Hal ->].
  apply ret_Some in H as [-> ->].
  exists md, w1, aux_o, ad, ml, al. repeat split; assumption.
Qed.

(** C1. The dictionary returned by [Criterion.__call__]: its ['losses']
    entry is the sum of the ['losses'] entries of the two dictionaries
    that [compute_loss] returned for the main outputs and for
    [outputs['aux_outputs']]; every other key of the auxiliary dictionary
    is present with the suffix ['_aux'] (holding the auxiliary value), and
    every other key of the main dictionary is present under its own
    name. *)
Theorem call_merges_the_two_branches (self : Criterion) (outputs : Outputs)
    (targets : list Target) (epoch : Z) (w w' : World) (d : Dict) :
  Criterion_call self outputs targets epoch w = Some (d, w') ->
  exists main_loss_dict w1 aux_o aux_loss_dict main_losses aux_losses,
    compute_loss self outputs targets (PyInt epoch) 0 w = Some (main_loss_dict, w1) /\
    aux_outputs outputs = Some aux_o /\
    compute_loss self aux_o targets (PyInt epoch) 0 w1 = Some (aux_loss_dict, w') /\
    dict_get main_loss_dict "losses" = Some main_losses /\
    dict_get aux_loss_dict "losses" = Some aux_losses /\
    dict_get d "losses" = Some (main_losses + aux_losses) /\
    (forall k v, k <> "losses" -> dict_get aux_loss_dict k = Some v ->
                 dict_get d (k ++ "_aux")%string = Some v) /\
    (forall k, k <> "losses" -> In k (dict_keys main_loss_dict) ->
               In k (dict_keys d)).
Proof.
  intros H.
  apply Criterion_call_inv in H
    as (md & w1 & aux_o & ad & ml & al & Hmain & Haux_o & Haux & Hml & Hal & ->).
  exists md, w1, aux_o, ad, ml, al.
  repeat (split; [assumption|]). split; [|split].
  - rewrite copy_entries_untouched
      by (intros k _ _; apply suffixed_key_not_losses).
    rewrite copy_entries_untouched by (intros k _ Hk; exact Hk).
    apply dict_get_set_same.
  - intros k v Hk Hv.
    apply (copy_entries_copied (fun k => (k ++ "_aux")%string)); try assumption.
    intros k1 k2. apply string_append_inj_l.
  - intros k Hk Hin. apply copy_entries_keeps_keys.
    apply dict_In_keys_get in Hin as [v Hv].
    eapply dict_get_In_keys.
    apply (copy_entries_copied (fun k => k)); try eassumption.
    intros k1 k2 Heq. exact Heq.
Qed.

End CallProperties.

Section ComputeLossProperties.

Context {ext : Externals}.

(** What [compute_loss] does, phase by phase, when it returns. *)
Lemma compute_loss_inv (self : Criterion) (outputs : Outputs)
    (targets : list Target) (aux_loss : PyArg) (epoch : Z)
    (w w' : World) (d : Dict) :
  compute_loss self outputs targets aux_loss epoch w = Some (d, w') ->
  exists cls_targets box_targets metrics num_fgs cls_preds L
         box_preds_pos box_targets_pos,
    let pos_inds := nonzero (fg_mask (num_classes self) cls_targets) in
    let loss_cls := t2_sum L / num_fgs in
    let loss_box := tsum (loss_bboxes box_preds_pos box_targets_pos) / num_fgs in
    let losses := loss_cls_weight self * loss_cls + loss_box_weight self * loss_box in
    assign_batch self outputs targets aux_loss
      = Some (cls_targets, box_targets, metrics) /\
    normalize_num_fgs metrics w = Some (num_fgs, w') /\
    view_rows (num_classes self) (concat (concat (pred_cls outputs)))
      = Some cls_preds /\
    loss_classes cls_preds (cls_targets, metrics) 2.0 = Some L /\
    index_rows (concat (pred_box outputs)) pos_inds = Some box_preds_pos /\
    index_rows box_targets pos_inds = Some box_targets_pos /\
    if (epoch >=? max_epoch self - no_aug_epoch self - 1)%Z
    then exists aux_sum,
        aux_regression_sum outputs pos_inds box_targets_pos = Some aux_sum /\
        d = dict_of [("loss_cls", loss_cls); ("loss_box", loss_box);
                     ("loss_box_aux", aux_sum / num_fgs);
                     ("losses", losses + aux_sum / num_fgs)]
    else d = dict_of [("loss_cls", loss_cls); ("loss_box", loss_box);
                      ("losses", losses)].
Proof.
  unfold compute_loss. intros H.
  apply bindM_Some in H as ([[cls_targets box_targets] metrics] & w1 & Ha & H).
  apply lift_Some in Ha as [Ha ->].
  apply bindM_Some in H as (num_fgs & w1 & Hn & H).
  apply bindM_Some in H as (cls_preds & w2 & Hv & H).
  apply lift_Some in Hv as [Hv ->].
  apply bindM_Some in H as (L & w2 & HL & H).
  apply lift_Some in HL as [HL ->].
  apply bindM_Some in H as (bp & w2 & Hbp & H).
  apply lift_Some in Hbp as [Hbp ->].
  apply bindM_Some in H as (bt & w2 & Hbt & H).
  apply lift_Some in Hbt as [Hbt ->].
  exists cls_targets, box_targets, metrics, num_fgs, cls_preds, L, bp, bt.
  cbv zeta.
  destruct (epoch >=? max_epoch self - no_aug_epoch self - 1)%Z.
  - apply bindM_Some in H as (aux_sum & w2 & Hs & H).
    apply lift_Some in Hs as [Hs ->].
    apply ret_Some in H as [-> ->].
    repeat (split; [assumption|]). exists aux_sum. split; [assumption|reflexivity].
  - apply ret_Some in H as [-> ->].
    repeat (split; [assumption|]). reflexivity.
Qed.

End ComputeLossProperties.

(** ** Tensors: indexing *)

Lemma nth_error_map2 {A B C : Type} (f : A -> B -> C) (l1 : list A) (l2 : list B)
    (i : nat) :
  nth_error (map2 f l1 l2) i =
  match nth_error l1 i, nth_error l2 i with
  | Some a, Some b => Some (f a b)
  | _, _ => None
  end.
Proof.
  revert l2 i. induction l1 as [|a l1 IH]; intros [|b l2] [|i]; simpl;
    try reflexivity.
  - destruct (nth_error l1 i); reflexivity.
  - apply IH.
Qed.

Lemma length_map2 {A B C : Type} (f : A -> B -> C) (l1 : list A) (l2 : list B) :
  length (map2 f l1 l2) = Nat.min (length l1) (length l2).
Proof.
  revert l2. induction l1 as [|a l1 IH]; intros [|b l2]; simpl;
    try reflexivity.
  now rewrite IH.
Qed.

Lemma map2_map_map {A B C D : Type} (f : B -> C -> D) (g : A -> B) (h : A -> C)
    (l : list A) :
  map2 f (map g l) (map h l) = map (fun a => f (g a) (h a)) l.
Proof.
  induction l as [|a l IH]; simpl; [reflexivity | now rewrite IH].
Qed.

Lemma combine_map_r {A B : Type} (g : A -> B) (l : list A) :
  combine l (map g l) = map (fun a => (a, g a)) l.
Proof.
  induction l as [|a l IH]; simpl; [reflexivity | now rewrite IH].
Qed.

Lemma combine_map_map {A B C : Type} (g : A -> B) (h : A -> C) (l : list A) :
  combine (map g l) (map h l) = map (fun a => (g a, h a)) l.
Proof.
  induction l as [|a l IH]; simpl; [reflexivity | now rewrite IH].
Qed.

Lemma mapM_map {A B C : Type} (f : B -> option C) (g : A -> B) (l : list A) :
  mapM f (map g l) = mapM (fun a => f (g a)) l.
Proof.
  induction l as [|a l IH]; simpl; [reflexivity | now rewrite IH].
Qed.

Lemma mapM_pointwise {A B : Type} (f : A -> option B) (g : A -> B) (l : list A) :
  (forall a, In a l -> f a = Some (g a)) -> mapM f l = Some (map g l).
Proof.
  induction l as [|a l IH]; intros H; simpl; [reflexivity|].
  rewrite (H a) by now left. simpl.
  rewrite IH by (intros a' Ha'; apply H; now right). reflexivity.
Qed.

Lemma mapM_Some_pointwise {A B : Type} (f : A -> option B) (l : list A)
    (bs : list B) :
  mapM f l = Some bs ->
  length bs = length l /\
  forall i a, nth_error l i = Some a ->
              exists b, f a = Some b /\ nth_error bs i = Some b.
Proof.
  revert bs. induction l as [|a l IH]; intros bs H; simpl in H.
  - injection H as <-. split; [reflexivity|]. intros [|i] a0 Hi; discriminate Hi.
  - apply bind_Some in H as (b & Hb & H).
    apply bind_Some in H as (bs' & Hbs' & H). injection H as <-.
    destruct (IH _ Hbs') as [Hlen Hnth]. split; [simpl; now rewrite Hlen|].
    intros [|i] a0 Hi; simpl in Hi.
    + injection Hi as <-. now exists b.
    + simpl. now apply Hnth.
Qed.

Lemma index_rows_in_range {A : Type} (t : list A) (idx : list nat) (dflt : A) :
  (forall i, In i idx -> (i < length t)%nat) ->
  index_rows t idx = Some (map (fun i => nth i t dflt) idx).
Proof.
  intros H. unfold index_rows. apply mapM_pointwise.
  intros i Hi. apply nth_error_nth'. now apply H.
Qed.

Lemma index_rows_Some {A : Type} (t : list A) (idx : list nat) (rows : list A)
    (dflt : A) :
  index_rows t idx = Some rows ->
  (forall i, In i idx -> (i < length t)%nat) /\
  rows = map (fun i => nth i t dflt) idx.
Proof.
  unfold index_rows. revert rows.
  induction idx as [|i idx IH]; intros rows H; simpl in H.
  - injection H as <-. split; [intros i []|reflexivity].
  - apply bind_Some in H as (a & Ha & H).
    apply bind_Some in H as (rows' & Hrows' & H). injection H as <-.
    destruct (IH _ Hrows') as [Hrange ->]. split.
    + intros i' [<-|Hi'].
      * apply nth_error_Some. now rewrite Ha.
      * now apply Hrange.
    + simpl. f_equal. symmetry. now apply nth_error_nth.
Qed.

(** ** The foreground indices *)

Lemma In_nonzero_from (mask : list bool) (start i : nat) :
  In i (nonzero_from start mask) <->
  (start <= i)%nat /\ nth_error mask (i - start) = Some true.
Proof.
  revert start. induction mask as [|b mask IH]; intros start; simpl.
  - split; [intros [] | intros [_ H]].
    destruct (i - start)%nat; discriminate H.
  - destruct b; simpl; rewrite IH.
    + split.
      * intros [<-|[Hle Hnth]].
        -- split; [lia|]. now rewrite Nat.sub_diag.
        -- split; [lia|].
           replace (i - start)%nat with (S (i - S start)) by lia. exact Hnth.
      * intros [Hle Hnth]. destruct (Nat.eq_dec start i) as [->|Hne]; [now left|].
        right. split; [lia|].
        replace (i - start)%nat with (S (i - S start)) in Hnth by lia. exact Hnth.
    + split.
      * intros [Hle Hnth]. split; [lia|].
        replace (i - start)%nat with (S (i - S start)) by lia. exact Hnth.
      * intros [Hle Hnth]. destruct (Nat.eq_dec start i) as [->|Hne].
        -- rewrite Nat.sub_diag in Hnth. discriminate Hnth.
        -- split; [lia|].
           replace (i - start)%nat with (S (i - S start)) in Hnth by lia.
           exact Hnth.
Qed.

Lemma In_nonzero (mask : list bool) (i : nat) :
  In i (nonzero mask) <-> nth_error mask i = Some true.
Proof.
  unfold nonzero. rewrite In_nonzero_from, Nat.sub_0_r.
  split; [now intros [_ H] | intros H; split; [lia | exact H]].
Qed.

Lemma In_pos_inds (bg_class_ind : nat) (cls_targets : list Z) (i : nat) :
  In i (nonzero (fg_mask bg_class_ind cls_targets)) <->
  exists l, nth_error cls_targets i = Some l /\ is_fg bg_class_ind l = true.
Proof.
  rewrite In_nonzero. unfold fg_mask. rewrite nth_error_map.
  destruct (nth_error cls_targets i) as [l|]; simpl.
  - split.
    + intros H. exists l. split; [reflexivity|]. now injection H.
    + intros (l' & Hl' & Hfg). injection Hl' as <-. now rewrite Hfg.
  - split; [discriminate | intros (l & Hl & _); discriminate Hl].
Qed.

(** ** Tensors: elementwise maps and assignments *)

Lemma t2_get_map (f : R -> R) (t : Tensor2) (i j : nat) :
  t2_get (t2_map f t) i j = option_map f (t2_get t i j).
Proof.
  unfold t2_get, t2_map. simpl. rewrite nth_error_map.
  destruct (nth_error (t2_rows t) i) as [row|]; simpl; [|reflexivity].
  now rewrite nth_error_map.
Qed.

Lemma t2_get_map2 (f : R -> R -> R) (a b : Tensor2) (i j : nat) :
  t2_get (t2_map2 f a b) i j =
  match t2_get a i j, t2_get b i j with
  | Some x, Some y => Some (f x y)
  | _, _ => None
  end.
Proof.
  unfold t2_get, t2_map2. simpl. rewrite nth_error_map2.
  destruct (nth_error (t2_rows a) i) as [ra|]; simpl; [|reflexivity].
  destruct (nth_error (t2_rows b) i) as [rb|]; simpl.
  - apply nth_error_map2.
  - destruct (nth_error ra j); reflexivity.
Qed.

Lemma t2_shape_map (f : R -> R) (t : Tensor2) (n c : nat) :
  t2_shape t n c -> t2_shape (t2_map f t) n c.
Proof.
  intros [Hn Hc]. split; simpl.
  - now rewrite length_map.
  - apply Forall_map. eapply Forall_impl; [|exact Hc].
    intros r Hr. now rewrite length_map.
Qed.

Lemma Forall2_length_map2 (f : R -> R -> R) (c : nat) (l1 l2 : list (list R)) :
  length l1 = length l2 ->
  Forall (fun r => length r = c) l1 -> Forall (fun r => length r = c) l2 ->
  Forall (fun r => length r = c) (map2 (map2 f) l1 l2).
Proof.
  revert l2. induction l1 as [|r1 l1 IH]; intros [|r2 l2] Hlen H1 H2; simpl;
    try constructor; try discriminate Hlen.
  - inversion H1; inversion H2; subst. rewrite length_map2. lia.
  - inversion H1; inversion H2; subst. apply IH; auto.
Qed.

Lemma t2_shape_map2 (f : R -> R -> R) (a b : Tensor2) (n c : nat) :
  t2_shape a n c -> t2_shape b n c -> t2_shape (t2_map2 f a b) n c.
Proof.
  intros [Hna Hca] [Hnb Hcb]. split; simpl.
  - rewrite length_map2. lia.
  - apply Forall2_length_map2; auto. lia.
Qed.

Lemma t2_get_in_range (t : Tensor2) (n c i j : nat) :
  t2_shape t n c -> (i < n)%nat -> (j < c)%nat ->
  exists x, t2_get t i j = Some x.
Proof.
  intros [Hn Hc] Hi Hj. unfold t2_get.
  destruct (nth_error (t2_rows t) i) as [row|] eqn:Erow.
  - simpl. rewrite Forall_forall in Hc.
    assert (Hlen : length row = c) by (apply Hc; eapply nth_error_In; eauto).
    destruct (nth_error row j) as [x|] eqn:Ex; [now exists x|].
    apply nth_error_None in Ex. lia.
  - apply nth_error_None in Erow. lia.
Qed.

Lemma list_set_in_range {A : Type} (l : list A) (i : nat) (v : A) :
  (i < length l)%nat ->
  exists l', list_set l i v = Some l' /\ length l' = length l /\
             forall i', nth_error l' i' =
                        if (i' =? i)%nat then Some v else nth_error l i'.
Proof.
  revert i. induction l as [|a l IH]; intros i Hi; simpl in Hi; [lia|].
  destruct i as [|i]; simpl.
  - exists (v :: l). repeat split. intros [|i']; reflexivity.
  - destruct (IH i ltac:(lia)) as (l' & -> & Hlen & Hnth). simpl.
    exists (a :: l'). repeat split; [simpl; now rewrite Hlen|].
    intros [|i']; simpl; [reflexivity | apply Hnth].
Qed.

Lemma t2_put_in_range (t : Tensor2) (n c i j : nat) (v : R) :
  t2_shape t n c -> (i < n)%nat -> (j < c)%nat ->
  exists t', t2_put t i j v = Some t' /\ t2_shape t' n c /\
             t2_cols t' = t2_cols t /\
             forall i' j', t2_get t' i' j' =
                           if ((i' =? i) && (j' =? j))%nat then Some v
                           else t2_get t i' j'.
Proof.
  intros [Hn Hc] Hi Hj. unfold t2_put.
  destruct (nth_error (t2_rows t) i) as [row|] eqn:Erow;
    [|apply nth_error_None in Erow; lia].
  simpl. rewrite Forall_forall in Hc.
  assert (Hlen : length row = c) by (apply Hc; eapply nth_error_In; eauto).
  destruct (list_set_in_range row j v ltac:(lia)) as (row' & -> & Hlen' & Hrow').
  simpl.
  destruct (list_set_in_range (t2_rows t) i row' ltac:(lia))
    as (rows' & -> & Hlenr & Hrows').
  simpl. eexists. split; [reflexivity|]. split; [|split; [reflexivity|]].
  - split; simpl; [lia|]. apply Forall_forall. intros r Hr.
    apply In_nth_error in Hr as [i' Hi']. rewrite Hrows' in Hi'.
    destruct (i' =? i)%nat.
    + injection Hi' as <-. lia.
    + apply Hc. eapply nth_error_In; eauto.
  - intros i' j'. unfold t2_get. simpl. rewrite Hrows'.
    destruct (i' =? i)%nat eqn:Ei; simpl.
    + apply Nat.eqb_eq in Ei. subst i'. rewrite Hrow', Erow. simpl.
      destruct (j' =? j)%nat; reflexivity.
    + reflexivity.
Qed.

(** The assignment [t[rows, cols] = vals] when the column and the value
    are functions of the row index. *)
Lemma index_put2_by_row (col : nat -> nat) (val : nat -> R) (n c : nat)
    (idx : list nat) (t : Tensor2) :
  t2_shape t n c ->
  (forall i, In i idx -> (i < n)%nat /\ (col i < c)%nat) ->
  exists t', index_put2 t (map (fun i => (i, col i, val i)) idx) = Some t' /\
             t2_shape t' n c /\ t2_cols t' = t2_cols t /\
             forall i j, t2_get t' i j =
                         if (existsb (Nat.eqb i) idx && (j =? col i))%nat
                         then Some (val i) else t2_get t i j.
Proof.
  revert t. induction idx as [|i0 idx IH]; intros t Hshape Hrange; simpl.
  - exists t. repeat split; try apply Hshape. 
  - destruct (Hrange i0 (or_introl eq_refl)) as [Hi0 Hc0].
    destruct (t2_put_in_range t n c i0 (col i0) (val i0) Hshape Hi0 Hc0)
      as (t1 & -> & Hshape1 & Hcols1 & Hget1).
    simpl.
    destruct (IH t1 Hshape1 (fun i Hi => Hrange i (or_intror Hi)))
      as (t' & -> & Hshape' & Hcols' & Hget').
    exists t'. split; [reflexivity|]. split; [exact Hshape'|].
    split; [congruence|].
    intros i j. rewrite Hget', Hget1.
    destruct (existsb (Nat.eqb i) idx) eqn:Ein; simpl.
    + rewrite orb_true_r. simpl.
      destruct (j =? col i)%nat eqn:Ej; [reflexivity|].
      destruct (i =? i0)%nat eqn:Ei; simpl; [|reflexivity].
      apply Nat.eqb_eq in Ei. subst i0. now rewrite Ej.
    + rewrite orb_false_r.
      destruct (i =? i0)%nat eqn:Ei; simpl; [|reflexivity].
      apply Nat.eqb_eq in Ei. subst i0. reflexivity.
Qed.

Lemma t2_get_nth (t : Tensor2) (i j : nat) (x : R) :
  t2_get t i j = Some x -> nth j (nth i (t2_rows t) []) 0 = x.
Proof.
  unfold t2_get. intros H. apply bind_Some in H as (row & Hrow & Hx).
  rewrite (nth_error_nth _ _ _ Hrow). now apply nth_error_nth.
Qed.

(** ** The classification loss *)

Section LossClasses.

Context {ext : Externals}.

(** C6. The matrix returned by [loss_classes]: at every (anchor, class)
    position the binary cross entropy with logits against a zero target
    scaled by [sigmoid(pred)^beta], except that for a foreground anchor
    (label in [0, number of class channels)) the entry at its label
    channel is the binary cross entropy with logits against the
    anchor's quality score scaled by [|score - sigmoid(pred)|^beta].
    The matrix has the shape of the logits. *)
Theorem loss_classes_is_quality_focal (pred_cls : Tensor2) (label : list Z)
    (score : list R) (beta : R) :
  t2_wf pred_cls ->
  length label = length (t2_rows pred_cls) ->
  length score = length (t2_rows pred_cls) ->
  exists L,
    loss_classes pred_cls (label, score) beta = Some L /\
    t2_cols L = t2_cols pred_cls /\
    length (t2_rows L) = length (t2_rows pred_cls) /\
    t2_wf L /\
    forall i j x l s,
      t2_get pred_cls i j = Some x ->
      nth_error label i = Some l ->
      nth_error score i = Some s ->
      t2_get L i j = Some (quality_focal_entry beta (t2_cols pred_cls) x l s j).
Proof.
  intros Hwf Hlabel Hscore.
  set (n := length (t2_rows pred_cls)) in *.
  set (c := t2_cols pred_cls) in *.
  assert (Hshape : t2_shape pred_cls n c) by (split; [reflexivity | exact Hwf]).
  unfold loss_classes. fold c.
  set (pos := nonzero (fg_mask c label)).
  assert (Hpos : forall i, In i pos ->
            exists l, nth_error label i = Some l /\ is_fg c l = true)
    by (intros i Hi; now apply In_pos_inds).
  assert (Hpos_lt : forall i, In i pos -> (i < n)%nat).
  { intros i Hi. destruct (Hpos i Hi) as (l & Hl & _).
    rewrite <- Hlabel. apply nth_error_Some. now rewrite Hl. }
  set (col := fun i => Z.to_nat (nth i label 0%Z)).
  assert (Hcol : forall i, In i pos -> (col i < c)%nat).
  { intros i Hi. destruct (Hpos i Hi) as (l & Hl & Hfg). unfold col.
    rewrite (nth_error_nth _ _ _ Hl). unfold is_fg in Hfg.
    apply andb_prop in Hfg as [H0 H1].
    apply Z.leb_le in H0. apply Z.ltb_lt in H1. lia. }
  set (xat := fun i => nth (col i) (nth i (t2_rows pred_cls) []) 0).
  set (sat := fun i => nth i score 0).
  assert (Hxat : forall i, In i pos -> t2_get pred_cls i (col i) = Some (xat i)).
  { intros i Hi.
    destruct (t2_get_in_range pred_cls n c i (col i) Hshape (Hpos_lt i Hi) (Hcol i Hi))
      as [x Hx].
    rewrite Hx. f_equal. symmetry. now apply t2_get_nth. }
  rewrite (index_rows_in_range label pos 0%Z)
    by (intros i Hi; rewrite Hlabel; now apply Hpos_lt).
  cbn [bind]. rewrite map_map. fold col.
  rewrite (index_rows_in_range score pos 0)
    by (intros i Hi; rewrite Hscore; now apply Hpos_lt).
  cbn [bind]. fold sat.
  unfold index2. rewrite combine_map_r, !mapM_map. cbn [fst snd].
  rewrite (mapM_pointwise _ (fun i => sigmoid (xat i)))
    by (intros i Hi; rewrite t2_get_map, (Hxat i Hi); reflexivity).
  cbn [bind].
  rewrite (mapM_pointwise _ xat) by exact Hxat.
  cbn [bind].
  rewrite !map2_map_map, map_map, map2_map_map, combine_map_map.
  set (val := fun i =>
    binary_cross_entropy_with_logits (xat i) (sat i) *
    tensor_pow (Rabs (sat i - sigmoid (xat i))) beta).
  set (ce_loss := t2_map2 Rmult _ _).
  assert (Hce : t2_shape ce_loss n c).
  { unfold ce_loss, t2_new_zeros.
    repeat first [apply t2_shape_map2 | apply t2_shape_map | exact Hshape]. }
  destruct (index_put2_by_row col val n c pos ce_loss Hce
              (fun i Hi => conj (Hpos_lt i Hi) (Hcol i Hi)))
    as (L & HL & [HLn HLc] & HLcols & HLget).
  exists L. split; [exact HL|]. split; [exact HLcols|].
  split; [exact HLn|]. split.
  { unfold t2_wf. rewrite HLcols. exact HLc. }
  intros i j x l s Hx Hl Hs. rewrite HLget.
  assert (Hin : existsb (Nat.eqb i) pos = is_fg c l).
  { destruct (is_fg c l) eqn:Hfg.
    - apply existsb_exists. exists i. split; [|apply Nat.eqb_refl].
      apply In_pos_inds. now exists l.
    - destruct (existsb (Nat.eqb i) pos) eqn:Ex; [|reflexivity].
      apply existsb_exists in Ex as (i' & Hi' & Heq).
      apply Nat.eqb_eq in Heq. subst i'.
      destruct (Hpos i Hi') as (l' & Hl' & Hfg'). congruence. }
  assert (Hcoli : col i = Z.to_nat l)
    by (unfold col; now rewrite (nth_error_nth _ _ _ Hl)).
  unfold quality_focal_entry. rewrite Hin, Hcoli, (Nat.eqb_sym j).
  destruct (is_fg c l && (Z.to_nat l =? j)%nat) eqn:Econd.
  - apply andb_prop in Econd as [_ Ej]. apply Nat.eqb_eq in Ej.
    unfold val, xat, sat. rewrite Hcoli, Ej.
    rewrite (t2_get_nth _ _ _ _ Hx), (nth_error_nth _ _ _ Hs). reflexivity.
  - unfold ce_loss, t2_new_zeros.
    rewrite !t2_get_map2, !t2_get_map, Hx. reflexivity.
Qed.

End LossClasses.

(** ** The auxiliary encoded-box loss *)

Section LossBboxesAux.

Context {ext : Externals}.

(** C9. For every (foreground) anchor [k] handed to [loss_bboxes_aux],
    the returned row is the elementwise absolute error between the raw
    regression prediction and the encoded target: centre offset
    [(gt_center - anchor_point) / stride] and size
    [log(gt_size / stride)], with [gt_center = (xy1 + xy2) / 2] and
    [gt_size = xy2 - xy1]; the four components are not reduced. *)
Theorem loss_bboxes_aux_is_l1_to_encoded_target (pred_reg gt_box : list Row4)
    (anchors : list Row2) (stride_tensors : list R) (k : nat)
    (p g : Row4) (a : Row2) (s : R) :
  nth_error pred_reg k = Some p ->
  nth_error gt_box k = Some g ->
  nth_error anchors k = Some a ->
  nth_error stride_tensors k = Some s ->
  let e := encoded_target g a s in
  nth_error (loss_bboxes_aux pred_reg gt_box anchors stride_tensors) k
  = Some (mkRow4 (Rabs (r4_0 p - r4_0 e)) (Rabs (r4_1 p - r4_1 e))
                 (Rabs (r4_2 p - r4_2 e)) (Rabs (r4_3 p - r4_3 e))).
Proof.
  intros Hp Hg Ha Hs e. unfold loss_bboxes_aux.
  repeat first [rewrite nth_error_map2 | rewrite nth_error_map
               | rewrite Hp | rewrite Hg | rewrite Ha | rewrite Hs
               | progress cbn [option_map]].
  unfold l1_loss, e, encoded_target, cat2, row2_div, row2_sub, row2_scale,
    row2_add, row2_map, lo2, hi2. cbn [r4_0 r4_1 r4_2 r4_3 r2_0 r2_1].
  do 2 f_equal; f_equal; f_equal; lra.
Qed.

End LossBboxesAux.

(** ** The foreground normalisation *)

Lemma normalize_num_fgs_value (assign_metrics : list R) (w w' : World) (num_fgs : R) :
  normalize_num_fgs assign_metrics w = Some (num_fgs, w') ->
  num_fgs = Rmax 1.0 (all_processes_mass assign_metrics w / IZR (get_world_size w)).
Proof.
  unfold normalize_num_fgs, all_processes_mass, bindM, all_reduce, ret, clamp.
  destruct (is_dist_avail_and_initialized w).
  - destruct (pending w) as [|others rest]; [discriminate|].
    intros H. injection H as <- _. simpl. apply Rmax_comm.
  - intros H. injection H as <- _. apply Rmax_comm.
Qed.

Lemma normalize_num_fgs_local (assign_metrics : list R) (w : World) :
  is_dist_avail_and_initialized w = false ->
  normalize_num_fgs assign_metrics w
  = Some (Rmax 1.0 (tsum assign_metrics / IZR (get_world_size w)), w).
Proof.
  intros Hd. unfold normalize_num_fgs, bindM, ret, clamp. rewrite Hd.
  now rewrite Rmax_comm.
Qed.

Section LossDictProperties.

Context {ext : Externals}.


(** C8. The ['losses'] entry returned by [compute_loss] is
    [loss_cls_weight * loss_cls + loss_box_weight * loss_box], to which
    [loss_box_aux] is added, unweighted, exactly when the auxiliary loss
    is active ([epoch >= max_epoch - no_aug_epoch - 1]); otherwise the
    dictionary has no ['loss_box_aux']. *)
Theorem losses_is_the_weighted_sum (self : Criterion) (outputs : Outputs)
    (targets : list Target) (aux_loss : PyArg) (epoch : Z)
    (w w' : World) (d : Dict) :
  compute_loss self outputs targets aux_loss epoch w = Some (d, w') ->
  exists loss_cls loss_box,
    dict_get d "loss_cls" = Some loss_cls /\
    dict_get d "loss_box" = Some loss_box /\
    if (epoch >=? max_epoch self - no_aug_epoch self - 1)%Z
    then exists loss_box_aux,
        dict_get d "loss_box_aux" = Some loss_box_aux /\
        dict_get d "losses"
        = Some (loss_cls_weight self * loss_cls + loss_box_weight self * loss_box
                + loss_box_aux)
    else dict_get d "loss_box_aux" = None /\
         dict_get d "losses"
         = Some (loss_cls_weight self * loss_cls + loss_box_weight self * loss_box).
Proof.
  intros H. apply compute_loss_inv in H
    as (cls_targets & box_targets & metrics & num_fgs & cls_preds & L & bp & bt & H).
  cbv zeta in H. destruct H as (_ & _ & _ & _ & _ & _ & H).
  exists (t2_sum L / num_fgs), (tsum (loss_bboxes bp bt) / num_fgs).
  destruct (epoch >=? max_epoch self - no_aug_epoch self - 1)%Z.
  - destruct H as (aux_sum & _ & ->).
    split; [reflexivity|]. split; [reflexivity|].
    exists (aux_sum / num_fgs). split; reflexivity.
  - subst d. repeat split; reflexivity.
Qed.

End LossDictProperties.

(** ** The box loss *)

Lemma tsum_nonzero_from (f : nat -> R) (mask : list bool) (start : nat) :
  tsum (map f (nonzero_from start mask)) =
  tsum (map (fun i => if nth (i - start) mask false then f i else 0)
            (seq start (length mask))).
Proof.
  revert start. induction mask as [|b mask IH]; intros start; [reflexivity|].
  assert (Htail :
    map (fun i => if nth (i - start) (b :: mask) false then f i else 0)
        (seq (S start) (length mask))
    = map (fun i => if nth (i - S start) mask false then f i else 0)
          (seq (S start) (length mask))).
  { apply map_ext_in. intros i Hi. apply in_seq in Hi.
    replace (i - start)%nat with (S (i - S start)) by lia. reflexivity. }
  cbn [length seq map]. rewrite Htail, Nat.sub_diag.
  unfold tsum in *. cbn [fold_right nth]. rewrite <- IH.
  cbn [nonzero_from]. destruct b; cbn [map fold_right]; lra.
Qed.

Lemma tsum_over_foreground (n_cls : nat) (cls_targets : list Z) (f : nat -> R) :
  tsum (map f (nonzero (fg_mask n_cls cls_targets))) =
  tsum (map (fun i => if is_fg n_cls (nth i cls_targets (Z.of_nat n_cls))
                      then f i else 0)
            (seq 0 (length cls_targets))).
Proof.
  unfold nonzero. rewrite tsum_nonzero_from. unfold fg_mask.
  rewrite length_map. f_equal. apply map_ext. intros i.
  rewrite Nat.sub_0_r.
  replace false with (is_fg n_cls (Z.of_nat n_cls)).
  - now rewrite map_nth.
  - unfold is_fg. rewrite Z.ltb_irrefl. apply andb_false_r.
Qed.

Lemma Rmax_same (x : R) : Rmax x x = x.
Proof. unfold Rmax. destruct (Rle_dec x x); reflexivity. Qed.

Lemma Rmin_same (x : R) : Rmin x x = x.
Proof. unfold Rmin. destruct (Rle_dec x x); reflexivity. Qed.

Lemma same_box_refl (b : Row4) : same_box b b = true.
Proof.
  unfold same_box.
  repeat match goal with
         | |- context [Req_EM_T ?x ?y] => destruct (Req_EM_T x y)
         end; congruence.
Qed.

(** The two values the spec gives: identical boxes, and two boxes
    without overlap whose enclosing box has no area. *)
Lemma giou_xyxy_same (b : Row4) : giou_xyxy b b = 1.
Proof. unfold giou_xyxy. now rewrite same_box_refl. Qed.

Lemma giou_xyxy_degenerate (b1 b2 : Row4) :
  same_box b1 b2 = false ->
  intersect_area b1 b2 = 0 -> enclose_area b1 b2 = 0 ->
  giou_xyxy b1 b2 = 0.
Proof.
  intros Hdiff Hinter Henclose. unfold giou_xyxy, giou_quotients, area_ratio.
  rewrite Hdiff, Hinter, Henclose.
  destruct (Req_EM_T 0 0) as [_|H]; [|now elim H].
  destruct (Req_EM_T (box_area b1 + box_area b2 - 0) 0); unfold Rdiv; lra.
Qed.

(** On a box of positive width and height the quotients give 1 as well:
    the value on identical boxes is that of the formula wherever the
    formula has one. *)
Lemma giou_quotients_same (b : Row4) : proper_box b -> giou_quotients b b = 1.
Proof.
  intros [Hw Hh]. unfold giou_quotients, area_ratio, intersect_area, enclose_area,
    box_area.
  rewrite !Rmax_same, !Rmin_same.
  rewrite (Rmax_left (r4_2 b - r4_0 b) 0), (Rmax_left (r4_3 b - r4_1 b) 0) by lra.
  set (a := (r4_2 b - r4_0 b) * (r4_3 b - r4_1 b)).
  assert (Ha : 0 < a) by (apply Rmult_lt_0_compat; lra).
  replace (a + a - a) with a by lra.
  destruct (Req_EM_T a 0) as [E|_]; [lra|].
  replace (a - a) with 0 by lra. unfold Rdiv. rewrite Rinv_r by lra. lra.
Qed.

Section LossBboxes.

Context {ext : Externals}.

Lemma loss_bboxes_nth (pred_box gt_box : list Row4) (k : nat) (p g : Row4) :
  nth_error pred_box k = Some p ->
  nth_error gt_box k = Some g ->
  nth_error (loss_bboxes pred_box gt_box) k
  = Some (1.0 - get_ious p g "xyxy" "giou").
Proof.
  intros Hp Hg. unfold loss_bboxes.
  now rewrite nth_error_map, nth_error_map2, Hp, Hg.
Qed.

(** The box loss of [compute_loss], anchor by anchor. *)
Lemma compute_loss_box_loss (self : Criterion) (outputs : Outputs)
    (targets : list Target) (aux_loss : PyArg) (epoch : Z)
    (w w' : World) (d : Dict) :
  compute_loss self outputs targets aux_loss epoch w = Some (d, w') ->
  exists cls_targets box_targets metrics num_fgs,
    assign_batch self outputs targets aux_loss
      = Some (cls_targets, box_targets, metrics) /\
    normalize_num_fgs metrics w = Some (num_fgs, w') /\
    dict_get d "loss_box"
    = Some (tsum (map (box_loss_of_anchor (num_classes self) cls_targets
                         (concat (pred_box outputs)) box_targets)
                      (seq 0 (length cls_targets)))
            / num_fgs).
Proof.
  intros H. apply compute_loss_inv in H
    as (cls_targets & box_targets & metrics & num_fgs & cls_preds & L & bp & bt & H).
  cbv zeta in H. destruct H as (Ha & Hn & _ & _ & Hbp & Hbt & H).
  exists cls_targets, box_targets, metrics, num_fgs.
  split; [exact Ha|]. split; [exact Hn|].
  assert (Hd : dict_get d "loss_box"
               = Some (tsum (loss_bboxes bp bt) / num_fgs)).
  { destruct (epoch >=? max_epoch self - no_aug_epoch self - 1)%Z.
    - destruct H as (aux_sum & _ & ->). reflexivity.
    - subst d. reflexivity. }
  rewrite Hd. do 2 f_equal.
  apply (index_rows_Some _ _ _ (mkRow4 0 0 0 0)) in Hbp as [_ ->].
  apply (index_rows_Some _ _ _ (mkRow4 0 0 0 0)) in Hbt as [_ ->].
  unfold loss_bboxes. rewrite map2_map_map, map_map.
  rewrite tsum_over_foreground. reflexivity.
Qed.

(** C7.  [loss_bboxes] returns [1 - GIoU(pred, gt)] for each pair of
    boxes; in [compute_loss] it is applied to the anchors whose assigned
    label lies in [0, num_classes) only, so that a background anchor
    contributes 0 to the box loss; and with the GIoU of the spec the
    loss of every pair with [pred == gt] is 0. *)
Theorem loss_bboxes_is_one_minus_giou :
  (forall pred_box gt_box k p g,
      nth_error pred_box k = Some p ->
      nth_error gt_box k = Some g ->
      nth_error (loss_bboxes pred_box gt_box) k
      = Some (1.0 - get_ious p g "xyxy" "giou")) /\
  (forall self outputs targets aux_loss epoch w w' d,
      compute_loss self outputs targets aux_loss epoch w = Some (d, w') ->
      exists cls_targets box_targets metrics num_fgs,
        assign_batch self outputs targets aux_loss
          = Some (cls_targets, box_targets, metrics) /\
        normalize_num_fgs metrics w = Some (num_fgs, w') /\
        dict_get d "loss_box"
        = Some (tsum (map (box_loss_of_anchor (num_classes self) cls_targets
                             (concat (pred_box outputs)) box_targets)
                          (seq 0 (length cls_targets)))
                / num_fgs)) /\
  (forall boxes k b,
      (forall b1 b2, get_ious b1 b2 "xyxy" "giou" = giou_xyxy b1 b2) ->
      nth_error boxes k = Some b ->
      nth_error (loss_bboxes boxes boxes) k = Some 0).
Proof.
  split; [exact loss_bboxes_nth|]. split; [exact compute_loss_box_loss|].
  intros boxes k b Hgiou Hb.
  rewrite (loss_bboxes_nth boxes boxes k b b Hb Hb), Hgiou, giou_xyxy_same.
  f_equal. lra.
Qed.

End LossBboxes.

(** ** Running the criterion on the example batch *)

Example example_compute_loss_returns :
  exists d w',
    compute_loss (ext := example_ext) example_criterion example_outputs
      example_targets (PyBool false) 0 single_process = Some (d, w').
Proof. eexists. eexists. run_criterion. Qed.

Example example_call_returns :
  exists d w',
    Criterion_call (ext := example_ext) example_criterion example_outputs
      example_targets 0 two_processes = Some (d, w') /\ pending w' = [].
Proof. eexists. eexists. split; run_criterion. Qed.

(** ** Shapes *)

Lemma list_set_Some {A : Type} (l l' : list A) (i : nat) (v : A) :
  list_set l i v = Some l' ->
  length l' = length l /\
  forall i', nth_error l' i' = if (i' =? i)%nat then Some v else nth_error l i'.
Proof.
  revert i l'. induction l as [|a l IH]; intros i l' H; simpl in H;
    [discriminate|].
  destruct i as [|i].
  - injection H as <-. split; [reflexivity|]. intros [|i']; reflexivity.
  - apply bind_Some in H as (l'' & Hl'' & H). injection H as <-.
    destruct (IH _ _ Hl'') as [Hlen Hnth]. split; [simpl; now rewrite Hlen|].
    intros [|i']; simpl; [reflexivity | apply Hnth].
Qed.

Lemma t2_put_shape (t t' : Tensor2) (i j : nat) (v : R) (n c : nat) :
  t2_put t i j v = Some t' -> t2_shape t n c ->
  t2_shape t' n c /\ t2_cols t' = t2_cols t.
Proof.
  unfold t2_put. intros H [Hn Hc].
  apply bind_Some in H as (row & Hrow & H).
  apply bind_Some in H as (row' & Hrow' & H).
  apply bind_Some in H as (rows' & Hrows' & H). injection H as <-.
  apply list_set_Some in Hrow' as [Hlen' _].
  apply list_set_Some in Hrows' as [Hlenr Hnth].
  split; [|reflexivity]. split; simpl; [lia|].
  rewrite Forall_forall in *. intros r Hr.
  apply In_nth_error in Hr as [i' Hi']. rewrite Hnth in Hi'.
  destruct (i' =? i)%nat.
  - injection Hi' as <-. rewrite Hlen'. apply Hc. eapply nth_error_In; eauto.
  - apply Hc. eapply nth_error_In; eauto.
Qed.

Lemma index_put2_shape (ups : list (nat * nat * R)) (t t' : Tensor2) (n c : nat) :
  index_put2 t ups = Some t' -> t2_shape t n c ->
  t2_shape t' n c /\ t2_cols t' = t2_cols t.
Proof.
  revert t. induction ups as [|[[i j] v] ups IH]; intros t H Hshape; simpl in H.
  - injection H as <-. split; [exact Hshape | reflexivity].
  - apply bind_Some in H as (t1 & Ht1 & H).
    destruct (t2_put_shape _ _ _ _ _ _ _ Ht1 Hshape) as [Hshape1 Hcols1].
    destruct (IH _ H Hshape1) as [Hshape' Hcols']. split; [exact Hshape'|].
    congruence.
Qed.

Section LossClassesShape.

Context {ext : Externals}.

(** [loss_classes] reduces nothing: its result has the shape of the
    logits. *)
Lemma loss_classes_shape (pred_cls L : Tensor2) (target : list Z * list R)
    (beta : R) (n c : nat) :
  loss_classes pred_cls target beta = Some L -> t2_shape pred_cls n c ->
  t2_shape L n c /\ t2_cols L = t2_cols pred_cls.
Proof.
  unfold loss_classes. destruct target as [label score]. intros H Hshape.
  apply bind_Some in H as (pos_label & _ & H).
  apply bind_Some in H as (score_pos & _ & H).
  apply bind_Some in H as (sig_pos & _ & H).
  apply bind_Some in H as (pred_pos & _ & H).
  eapply index_put2_shape in H as [HL Hcols].
  - split; [exact HL | exact Hcols].
  - unfold t2_new_zeros.
    repeat first [apply t2_shape_map2 | apply t2_shape_map | exact Hshape].
Qed.

End LossClassesShape.

Lemma chunks_fuel_rows (n q fuel : nat) (l : list R) :
  (0 < n)%nat -> length l = (q * n)%nat -> (length l <= fuel)%nat ->
  length (chunks_fuel fuel n l) = q /\
  Forall (fun r => length r = n) (chunks_fuel fuel n l).
Proof.
  intros Hn. revert q l. induction fuel as [|fuel IH]; intros q l Hlen Hfuel.
  - simpl. destruct q; [split; [reflexivity | constructor]|]. simpl in Hlen. lia.
  - simpl. destruct l as [|a l'] eqn:El.
    + simpl in Hlen. destruct q; [split; [reflexivity | constructor]|].
      simpl in Hlen. lia.
    + rewrite <- El in *. destruct q as [|q]; [subst l; simpl in Hlen; lia|].
      simpl in Hlen.
      assert (Hskip : length (skipn n l) = (q * n)%nat)
        by (rewrite length_skipn; lia).
      assert (Hl1 : (1 <= length l)%nat) by (subst l; simpl; lia).
      destruct (IH q (skipn n l) Hskip ltac:(lia)) as [Hq Hrows].
      split; [simpl; now rewrite Hq|].
      constructor; [|exact Hrows]. rewrite length_firstn. lia.
Qed.

Lemma view_rows_shape (n : nat) (flat : list R) (t : Tensor2) :
  view_rows n flat = Some t ->
  t2_cols t = n /\ t2_wf t /\ (length (t2_rows t) * n)%nat = length flat.
Proof.
  unfold view_rows. destruct n as [|n']; [discriminate|].
  set (n := S n'). destruct (length flat mod n =? 0)%nat eqn:Emod;
    [|discriminate].
  intros H. injection H as <-. simpl.
  apply Nat.eqb_eq in Emod. apply Nat.Div0.mod_divides in Emod as [q Hq].
  destruct (chunks_fuel_rows n q (length flat) flat) as [Hlen Hrows];
    [unfold n; lia | lia | lia |].
  split; [reflexivity|]. split; [exact Hrows|]. lia.
Qed.

(** ** The classification loss of [compute_loss] *)

Section LossClsProperties.

Context {ext : Externals}.

(** C5 (as amended).  The scalar ['loss_cls'] returned by [compute_loss]
    is the sum of all elements of the matrix that [loss_classes]
    returns, divided by the foreground normalisation constant
    [num_fgs = max(1.0, S / W)], the floored mean over the processes of
    the summed assignment metrics (not the number of foreground
    anchors); [loss_classes] itself reduces nothing: its matrix has one
    row per anchor of the batch and [num_classes] columns. *)
Theorem loss_cls_is_sum_over_num_fgs (self : Criterion) (outputs : Outputs)
    (targets : list Target) (aux_loss : PyArg) (epoch : Z)
    (w w' : World) (d : Dict) :
  compute_loss self outputs targets aux_loss epoch w = Some (d, w') ->
  exists cls_targets box_targets metrics num_fgs cls_preds L,
    assign_batch self outputs targets aux_loss
      = Some (cls_targets, box_targets, metrics) /\
    num_fgs = Rmax 1.0 (all_processes_mass metrics w / IZR (get_world_size w)) /\
    view_rows (num_classes self) (concat (concat (pred_cls outputs)))
      = Some cls_preds /\
    loss_classes cls_preds (cls_targets, metrics) 2.0 = Some L /\
    dict_get d "loss_cls" = Some (t2_sum L / num_fgs) /\
    t2_cols L = num_classes self /\
    t2_wf L /\
    (length (t2_rows L) * num_classes self)%nat
    = length (concat (concat (pred_cls outputs))).
Proof.
  intros H. apply compute_loss_inv in H
    as (cls_targets & box_targets & metrics & num_fgs & cls_preds & L & bp & bt & H).
  cbv zeta in H. destruct H as (Ha & Hn & Hv & HL & _ & _ & H).
  exists cls_targets, box_targets, metrics, num_fgs, cls_preds, L.
  apply normalize_num_fgs_value in Hn.
  destruct (view_rows_shape _ _ _ Hv) as (Hcols & Hwf & Hsize).
  destruct (loss_classes_shape _ _ _ _ _ _ HL (conj eq_refl Hwf))
    as [[HLn HLc] HLcols].
  repeat (split; [assumption|]). split; [|split; [|split]].
  - destruct (epoch >=? max_epoch self - no_aug_epoch self - 1)%Z.
    + destruct H as (aux_sum & _ & ->). reflexivity.
    + subst d. reflexivity.
  - congruence.
  - unfold t2_wf. rewrite HLcols. exact HLc.
  - rewrite HLn. exact Hsize.
Qed.

End LossClsProperties.

(** ** The kernels over the reals *)

Lemma real_sigmoid_0 : real_sigmoid 0 = 1 / 2.
Proof. unfold real_sigmoid. rewrite Ropp_0, exp_0. lra. Qed.

Lemma real_bce_0_0 : real_bce_with_logits 0 0 = ln 2.
Proof.
  unfold real_bce_with_logits. rewrite Ropp_0, exp_0.
  replace (1 + 1) with 2 by lra. lra.
Qed.

Lemma ln_2_pos : 0 < ln 2.
Proof. rewrite <- ln_1. apply ln_increasing; lra. Qed.

Lemma real_pow_0 (b : R) : real_pow 0 b = 0.
Proof. unfold real_pow. destruct (Req_EM_T 0 0) as [_|H]; [reflexivity|lra]. Qed.

Lemma real_pow_pos (x b : R) : 0 < x -> 0 < real_pow x b.
Proof.
  intros Hx. unfold real_pow. destruct (Req_EM_T x 0) as [H|_]; [lra|].
  unfold Rpower. apply exp_pos.
Qed.

(** C5, against the claim as stated: on the example batch assigned by
    the auxiliary matcher there are two foreground anchors, each of
    quality 1/2, so that [num_fgs] is 1 while the number of foreground
    samples is 2: ['loss_cls'] is the whole sum of the loss matrix, not
    half of it. *)
Lemma loss_cls_is_not_sum_over_foreground_count :
  exists d w' cls_targets box_targets metrics cls_preds L v,
    compute_loss (ext := example_ext) example_criterion example_outputs
      example_targets (PyBool true) 0 single_process = Some (d, w') /\
    assign_batch example_criterion example_outputs example_targets (PyBool true)
      = Some (cls_targets, box_targets, metrics) /\
    length (nonzero (fg_mask (num_classes example_criterion) cls_targets)) = 2%nat /\
    view_rows (num_classes example_criterion)
      (concat (concat (pred_cls example_outputs))) = Some cls_preds /\
    loss_classes (ext := example_ext) cls_preds (cls_targets, metrics) 2.0 = Some L /\
    dict_get d "loss_cls" = Some v /\
    t2_sum L / Rmax 1 2 < v.
Proof.
  do 8 eexists.
  split; [run_criterion|]. split; [run_criterion|]. split; [reflexivity|].
  split; [run_criterion|]. split; [run_criterion|]. split; [reflexivity|].
  lazy -[Rplus Rmult Rminus Rdiv Ropp Rinv Rmax Rmin Rabs IZR INR ln exp Rpower
         real_sigmoid real_bce_with_logits real_pow giou_xyxy Rlt].
  rewrite real_sigmoid_0, real_bce_0_0.
  replace (1 / 2 - 1 / 2) with 0 by lra. rewrite Rabs_R0, real_pow_0.
  rewrite (Rmax_right 1 2) by lra.
  replace ((1 / 2 + (1 / 2 + 0)) / 1) with 1 by lra.
  replace (10 * / 10) with 1 by lra. rewrite Rmax_same.
  pose proof ln_2_pos as Hln.
  pose proof (real_pow_pos (1 / 2) (20 * / 10) ltac:(lra)) as Hpow.
  pose proof (Rmult_lt_0_compat _ _ Hln Hpow) as Hprod.
  lra.
Qed.

(** ** Which matcher, which epoch *)

Section MatcherChoice.

Context {ext : Externals}.

(** Both calls of [compute_loss] in [__call__] run with the parameter
    [epoch] at its default 0 and with [aux_loss] set to the caller's
    epoch. *)
Lemma Criterion_call_branches (self : Criterion) (outputs : Outputs)
    (targets : list Target) (epoch : Z) (w w' : World) (d : Dict) :
  Criterion_call self outputs targets epoch w = Some (d, w') ->
  exists main_loss_dict w1 aux_o aux_loss_dict,
    compute_loss self outputs targets (PyInt epoch) 0 w = Some (main_loss_dict, w1) /\
    aux_outputs outputs = Some aux_o /\
    compute_loss self aux_o targets (PyInt epoch) 0 w1 = Some (aux_loss_dict, w') /\
    dict_get d "loss_box_aux" = dict_get aux_loss_dict "loss_box" /\
    dict_mem aux_loss_dict "loss_box" = true /\
    dict_mem d "loss_box_aux_aux" = (0 >=? max_epoch self - no_aug_epoch self - 1)%Z.
Proof.
  intros H.
  apply Criterion_call_inv in H
    as (md & w1 & aux_o & ad & ml & al & Hmain & Haux_o & Haux & Hml & Hal & ->).
  exists md, w1, aux_o, ad. repeat (split; [assumption|]).
  apply compute_loss_inv in Haux
    as (ct & bt & ms & n & cp & L & bp & btp & Haux).
  cbv zeta in Haux. destruct Haux as (_ & _ & _ & _ & _ & _ & Haux).
  assert (Hbox : exists v, dict_get ad "loss_box" = Some v).
  { destruct (0 >=? max_epoch self - no_aug_epoch self - 1)%Z.
    - destruct Haux as (aux_sum & _ & ->). eexists. reflexivity.
    - subst ad. eexists. reflexivity. }
  destruct Hbox as [v Hv]. split; [|split].
  - rewrite Hv.
    apply (copy_entries_copied (fun k => (k ++ "_aux")%string) ad _ "loss_box");
      [intros k1 k2; apply string_append_inj_l | discriminate | exact Hv].
  - unfold dict_mem. now rewrite Hv.
  - unfold dict_mem.
    destruct (0 >=? max_epoch self - no_aug_epoch self - 1)%Z.
    + destruct Haux as (aux_sum & _ & Had).
      rewrite (copy_entries_copied (fun k => (k ++ "_aux")%string) ad _
                 "loss_box_aux" (aux_sum / n));
        [reflexivity | intros k1 k2; apply string_append_inj_l | discriminate
        | subst ad; reflexivity].
    + rewrite copy_entries_untouched.
      * rewrite copy_entries_untouched; [reflexivity|].
        intros k Hk _ Heq. subst k.
        apply compute_loss_inv in Hmain
          as (ct' & bt' & ms' & n' & cp' & L' & bp' & btp' & Hmain).
        cbv zeta in Hmain. destruct Hmain as (_ & _ & _ & _ & _ & _ & Hmain).
        destruct (0 >=? max_epoch self - no_aug_epoch self - 1)%Z eqn:E.
        -- destruct Hmain as (aux_sum & _ & ->).
           cbn in Hk. intuition discriminate.
        -- subst md. cbn in Hk. intuition discriminate.
      * intros k Hk _ Heq.
        change "loss_box_aux_aux" with ("loss_box_aux" ++ "_aux")%string in Heq.
        apply string_append_inj_l in Heq. subst k.
        subst ad. cbn in Hk. intuition discriminate.
Qed.

End MatcherChoice.

(** ** The matcher that is not consulted *)

Lemma mapM_ext {A B : Type} (f g : A -> option B) (l : list A) :
  (forall x, f x = g x) -> mapM f l = mapM g l.
Proof.
  intros Hfg. induction l as [|x l IH]; cbn; [reflexivity|].
  now rewrite Hfg, IH.
Qed.

Lemma assign_batch_without_aux_matcher (self : Criterion) (outputs : Outputs)
    (targets : list Target) (aux_loss : PyArg) (m : Assigner) :
  truthy aux_loss = false ->
  assign_batch (with_aux_matcher self m) outputs targets aux_loss
  = assign_batch self outputs targets aux_loss.
Proof.
  intros Hfalse. unfold assign_batch.
  rewrite (mapM_ext (assign_image (with_aux_matcher self m) outputs targets aux_loss)
             (assign_image self outputs targets aux_loss)); [reflexivity|].
  intros i. unfold assign_image. now rewrite Hfalse.
Qed.

Lemma assign_batch_without_matcher (self : Criterion) (outputs : Outputs)
    (targets : list Target) (aux_loss : PyArg) (m : Assigner) :
  truthy aux_loss = true ->
  assign_batch (with_matcher self m) outputs targets aux_loss
  = assign_batch self outputs targets aux_loss.
Proof.
  intros Htrue. unfold assign_batch.
  rewrite (mapM_ext (assign_image (with_matcher self m) outputs targets aux_loss)
             (assign_image self outputs targets aux_loss)); [reflexivity|].
  intros i. unfold assign_image. now rewrite Htrue.
Qed.

Section OneMatcher.

Context {ext : Externals}.

Lemma compute_loss_without_aux_matcher (self : Criterion) (outputs : Outputs)
    (targets : list Target) (aux_loss : PyArg) (epoch : Z) (m : Assigner)
    (w : World) :
  truthy aux_loss = false ->
  compute_loss (with_aux_matcher self m) outputs targets aux_loss epoch w
  = compute_loss self outputs targets aux_loss epoch w.
Proof.
  intros Hfalse. unfold compute_loss.
  now rewrite (assign_batch_without_aux_matcher self outputs targets aux_loss m Hfalse).
Qed.

Lemma compute_loss_without_matcher (self : Criterion) (outputs : Outputs)
    (targets : list Target) (aux_loss : PyArg) (epoch : Z) (m : Assigner)
    (w : World) :
  truthy aux_loss = true ->
  compute_loss (with_matcher self m) outputs targets aux_loss epoch w
  = compute_loss self outputs targets aux_loss epoch w.
Proof.
  intros Htrue. unfold compute_loss.
  now rewrite (assign_batch_without_matcher self outputs targets aux_loss m Htrue).
Qed.

(** Every image of a batch is assigned by one and the same matcher, so
    that the other one has no part in the result: [compute_loss] with a
    falsy [aux_loss] returns the same dictionary whatever [aux_matcher]
    is, and with a truthy [aux_loss] whatever [matcher] is.  For
    [__call__] this means that from epoch 1 on the result of both
    branches is independent of the main matcher, and at epoch 0 of the
    auxiliary one. *)
Theorem call_consults_one_matcher (self : Criterion) (outputs : Outputs)
    (targets : list Target) (m : Assigner) (w : World) :
  (forall aux_loss epoch,
      truthy aux_loss = false ->
      compute_loss (with_aux_matcher self m) outputs targets aux_loss epoch w
      = compute_loss self outputs targets aux_loss epoch w) /\
  (forall aux_loss epoch,
      truthy aux_loss = true ->
      compute_loss (with_matcher self m) outputs targets aux_loss epoch w
      = compute_loss self outputs targets aux_loss epoch w) /\
  (forall epoch,
      epoch <> 0%Z ->
      Criterion_call (with_matcher self m) outputs targets epoch w
      = Criterion_call self outputs targets epoch w) /\
  Criterion_call (with_aux_matcher self m) outputs targets 0 w
  = Criterion_call self outputs targets 0 w.
Proof.
  split; [|split; [|split]].
  - intros aux_loss epoch Hfalse. now apply compute_loss_without_aux_matcher.
  - intros aux_loss epoch Htrue. now apply compute_loss_without_matcher.
  - intros epoch Hepoch.
    assert (Htrue : truthy (PyInt epoch) = true).
    { cbn. apply negb_true_iff, Z.eqb_neq, Hepoch. }
    unfold Criterion_call, bindM.
    rewrite (compute_loss_without_matcher self outputs targets _ 0 m w Htrue).
    destruct (compute_loss self outputs targets (PyInt epoch) 0 w)
      as [[main_loss_dict w1]|]; [|reflexivity].
    unfold lift. destruct (aux_outputs outputs) as [aux_o|]; [|reflexivity].
    now rewrite (compute_loss_without_matcher self aux_o targets _ 0 m w1 Htrue).
  - unfold Criterion_call, bindM.
    rewrite (compute_loss_without_aux_matcher self outputs targets (PyInt 0) 0 m w
               eq_refl).
    destruct (compute_loss self outputs targets (PyInt 0) 0 w)
      as [[main_loss_dict w1]|]; [|reflexivity].
    unfold lift. destruct (aux_outputs outputs) as [aux_o|]; [|reflexivity].
    now rewrite (compute_loss_without_aux_matcher self aux_o targets (PyInt 0) 0 m w1
                   eq_refl).
Qed.

End OneMatcher.

(** On the example batch at epoch 1, with a main matcher that assigns
    nothing in the place of the criterion's own. *)
Lemma call_consults_one_matcher_on_example :
  1%Z <> 0%Z /\
  Criterion_call (ext := example_ext)
    (with_matcher example_criterion
       (fun _ _ _ _ _ _ => mkAssignedResult [] [] []))
    example_outputs example_targets 1 single_process
  = Criterion_call (ext := example_ext) example_criterion example_outputs
      example_targets 1 single_process.
Proof.
  split; [discriminate|].
  apply (call_consults_one_matcher (ext := example_ext) example_criterion
           example_outputs example_targets
           (fun _ _ _ _ _ _ => mkAssignedResult [] [] []) single_process).
  discriminate.
Defined.

(** ** The criterion on the example batch *)

(** C2, on the code: at epoch 1 the main branch of [__call__] is
    assigned by the auxiliary matcher (both anchors foreground), where
    the main matcher assigns one anchor; at epoch 0 the auxiliary branch
    is assigned by the main matcher (one anchor), where the auxiliary
    matcher assigns both. *)
Theorem call_chooses_the_matcher_by_epoch :
  (exists d w',
      Criterion_call (ext := example_ext) example_criterion example_outputs
        example_targets 1 single_process = Some (d, w')) /\
  option_map (fun r => fst (fst r))
    (assign_batch example_criterion example_outputs example_targets (PyInt 1))
  = Some [0; 0]%Z /\
  assigned_labels
    (matcher example_criterion (stride example_outputs) (anchors example_outputs)
       [[0; 0]; [0; 0]] [mkRow4 0 0 1 1; mkRow4 0 0 2 1] [0%Z] [example_box])
  = [0; 2]%Z /\
  (exists d w',
      Criterion_call (ext := example_ext) example_criterion example_outputs
        example_targets 0 single_process = Some (d, w')) /\
  option_map (fun r => fst (fst r))
    (assign_batch example_criterion example_aux_outputs example_targets (PyInt 0))
  = Some [0; 2]%Z /\
  assigned_labels
    (aux_matcher example_criterion (stride example_aux_outputs)
       (anchors example_aux_outputs)
       [[0; 0]; [0; 0]] [mkRow4 0 0 1 1; mkRow4 0 0 2 1] [0%Z] [example_box])
  = [0; 0]%Z.
Proof.
  split; [eexists; eexists; run_criterion|].
  split; [run_criterion|]. split; [run_criterion|].
  split; [eexists; eexists; run_criterion|].
  split; run_criterion.
Qed.

(** C3, on the code: with [max_epoch = 300] and [no_aug_epoch = 20] the
    threshold is 279.  At epoch 0 the returned dictionary has a
    ['loss_box_aux'] entry all the same (the GIoU loss of the auxiliary
    branch under its suffixed name); at epoch 299 no encoded-box loss is
    computed: the dictionary has the same five keys, and ['losses'] is
    the weighted sum of the two branches' classification and GIoU
    losses only. *)
Theorem call_ignores_the_epoch_for_the_aux_box_loss :
  ((0 <? max_epoch example_criterion - no_aug_epoch example_criterion - 1)%Z = true /\
   exists d w',
     Criterion_call (ext := example_ext) example_criterion example_outputs
       example_targets 0 single_process = Some (d, w') /\
     dict_mem d "loss_box_aux" = true) /\
  ((299 >=? max_epoch example_criterion - no_aug_epoch example_criterion - 1)%Z = true /\
   exists d w' loss_cls loss_box loss_cls_aux loss_box_aux,
     Criterion_call (ext := example_ext) example_criterion example_outputs
       example_targets 299 single_process = Some (d, w') /\
     dict_keys d = ["losses"; "loss_cls"; "loss_box"; "loss_cls_aux"; "loss_box_aux"] /\
     dict_get d "loss_cls" = Some loss_cls /\
     dict_get d "loss_box" = Some loss_box /\
     dict_get d "loss_cls_aux" = Some loss_cls_aux /\
     dict_get d "loss_box_aux" = Some loss_box_aux /\
     dict_get d "losses"
     = Some (loss_cls_weight example_criterion * loss_cls
             + loss_box_weight example_criterion * loss_box
             + (loss_cls_weight example_criterion * loss_cls_aux
                + loss_box_weight example_criterion * loss_box_aux))).
Proof.
  split.
  - split; [reflexivity|]. eexists. eexists. split; [run_criterion | reflexivity].
  - split; [reflexivity|]. do 6 eexists.
    split; [run_criterion|]. repeat (split; [reflexivity|]). reflexivity.
Qed.

(** ** The properties at work on the example batch *)

Lemma call_merges_the_two_branches_on_example :
  exists d w',
    Criterion_call (ext := example_ext) example_criterion example_outputs
      example_targets 0 two_processes = Some (d, w') /\
    exists main_loss_dict w1 aux_o aux_loss_dict main_losses aux_losses,
      compute_loss (ext := example_ext) example_criterion example_outputs
        example_targets (PyInt 0) 0 two_processes = Some (main_loss_dict, w1) /\
      aux_outputs example_outputs = Some aux_o /\
      compute_loss (ext := example_ext) example_criterion aux_o example_targets
        (PyInt 0) 0 w1 = Some (aux_loss_dict, w') /\
      dict_get main_loss_dict "losses" = Some main_losses /\
      dict_get aux_loss_dict "losses" = Some aux_losses /\
      dict_get d "losses" = Some (main_losses + aux_losses) /\
      (forall k v, k <> "losses" -> dict_get aux_loss_dict k = Some v ->
                   dict_get d (k ++ "_aux")%string = Some v) /\
      (forall k, k <> "losses" -> In k (dict_keys main_loss_dict) ->
                 In k (dict_keys d)).
Proof.
  eexists. eexists. split; [run_criterion|].
  eapply (call_merges_the_two_branches (ext := example_ext) example_criterion
           example_outputs example_targets 0 two_processes).
  run_criterion.
Defined.


Lemma losses_is_the_weighted_sum_on_example :
  exists d w',
    compute_loss (ext := example_ext) example_criterion example_outputs
      example_targets (PyBool false) 299 single_process = Some (d, w') /\
    exists loss_cls loss_box,
      dict_get d "loss_cls" = Some loss_cls /\
      dict_get d "loss_box" = Some loss_box /\
      if (299 >=? max_epoch example_criterion - no_aug_epoch example_criterion - 1)%Z
      then exists loss_box_aux,
          dict_get d "loss_box_aux" = Some loss_box_aux /\
          dict_get d "losses"
          = Some (loss_cls_weight example_criterion * loss_cls
                  + loss_box_weight example_criterion * loss_box + loss_box_aux)
      else dict_get d "loss_box_aux" = None /\
           dict_get d "losses"
           = Some (loss_cls_weight example_criterion * loss_cls
                   + loss_box_weight example_criterion * loss_box).
Proof.
  eexists. eexists. split; [run_criterion|].
  eapply (losses_is_the_weighted_sum (ext := example_ext) example_criterion
           example_outputs example_targets (PyBool false) 299 single_process).
  run_criterion.
Defined.

Lemma loss_cls_is_sum_over_num_fgs_on_example :
  exists d w',
    compute_loss (ext := example_ext) example_criterion example_outputs
      example_targets (PyBool true) 0 single_process = Some (d, w') /\
    exists cls_targets box_targets metrics num_fgs cls_preds L,
      assign_batch example_criterion example_outputs example_targets (PyBool true)
        = Some (cls_targets, box_targets, metrics) /\
      num_fgs = Rmax 1.0 (all_processes_mass metrics single_process
                          / IZR (get_world_size single_process)) /\
      view_rows (num_classes example_criterion)
        (concat (concat (pred_cls example_outputs))) = Some cls_preds /\
      loss_classes (ext := example_ext) cls_preds (cls_targets, metrics) 2.0
        = Some L /\
      dict_get d "loss_cls" = Some (t2_sum L / num_fgs) /\
      t2_cols L = num_classes example_criterion /\
      t2_wf L /\
      (length (t2_rows L) * num_classes example_criterion)%nat
      = length (concat (concat (pred_cls example_outputs))).
Proof.
  eexists. eexists. split; [run_criterion|].
  eapply (loss_cls_is_sum_over_num_fgs (ext := example_ext) example_criterion
           example_outputs example_targets (PyBool true) 0 single_process).
  run_criterion.
Defined.

Lemma loss_classes_is_quality_focal_on_example :
  exists L,
    loss_classes (ext := example_ext) (mkTensor2 2 [[0; 1]; [2; 3]])
      ([1%Z; 2%Z], [1 / 2; 0]) 2.0 = Some L /\
    t2_cols L = 2%nat /\
    length (t2_rows L) = 2%nat /\
    t2_wf L /\
    forall i j x l s,
      t2_get (mkTensor2 2 [[0; 1]; [2; 3]]) i j = Some x ->
      nth_error [1%Z; 2%Z] i = Some l ->
      nth_error [1 / 2; 0] i = Some s ->
      t2_get L i j
      = Some (quality_focal_entry (ext := example_ext) 2.0 2 x l s j).
Proof.
  apply (loss_classes_is_quality_focal (ext := example_ext)
           (mkTensor2 2 [[0; 1]; [2; 3]]) [1%Z; 2%Z] [1 / 2; 0] 2.0).
  - repeat constructor.
  - reflexivity.
  - reflexivity.
Defined.

Lemma loss_bboxes_aux_on_example :
  let e := encoded_target (ext := example_ext) (mkRow4 0 0 16 8) (mkRow2 4 4) 8 in
  nth_error
    (loss_bboxes_aux (ext := example_ext) [mkRow4 1 0 0 1] [mkRow4 0 0 16 8]
       [mkRow2 4 4] [8]) 0
  = Some (mkRow4 (Rabs (1 - r4_0 e)) (Rabs (0 - r4_1 e))
                 (Rabs (0 - r4_2 e)) (Rabs (1 - r4_3 e))).
Proof.
  apply (loss_bboxes_aux_is_l1_to_encoded_target (ext := example_ext)
           [mkRow4 1 0 0 1] [mkRow4 0 0 16 8] [mkRow2 4 4] [8] 0
           (mkRow4 1 0 0 1) (mkRow4 0 0 16 8) (mkRow2 4 4) 8);
    reflexivity.
Defined.

Lemma loss_bboxes_is_one_minus_giou_on_example :
  nth_error (loss_bboxes (ext := example_ext) [mkRow4 0 0 1 1] [example_box]) 0
  = Some (1.0 - get_ious (Externals := example_ext) (mkRow4 0 0 1 1) example_box
                  "xyxy" "giou") /\
  (exists d w',
      compute_loss (ext := example_ext) example_criterion example_outputs
        example_targets (PyBool false) 0 single_process = Some (d, w') /\
      exists cls_targets box_targets metrics num_fgs,
        assign_batch example_criterion example_outputs example_targets (PyBool false)
          = Some (cls_targets, box_targets, metrics) /\
        normalize_num_fgs metrics single_process = Some (num_fgs, w') /\
        dict_get d "loss_box"
        = Some (tsum (map (box_loss_of_anchor (ext := example_ext)
                             (num_classes example_criterion) cls_targets
                             (concat (pred_box example_outputs)) box_targets)
                          (seq 0 (length cls_targets)))
                / num_fgs)) /\
  nth_error
    (loss_bboxes (ext := example_ext) [example_box; mkRow4 1 1 1 1]
       [example_box; mkRow4 1 1 1 1]) 1
  = Some 0.
Proof.
  pose proof (loss_bboxes_is_one_minus_giou (ext := example_ext))
    as (Hpair & Hbatch & Hsame).
  split; [|split].
  - apply Hpair; reflexivity.
  - eexists. eexists. split; [run_criterion|].
    eapply (Hbatch example_criterion example_outputs example_targets
              (PyBool false) 0%Z single_process).
    run_criterion.
  - apply (Hsame _ 1%nat (mkRow4 1 1 1 1)).
    + intros b1 b2. reflexivity.
    + reflexivity.
Defined.

Lemma Criterion_call_branches_on_example :
  exists d w',
    Criterion_call (ext := example_ext) example_criterion example_outputs
      example_targets 299 two_processes = Some (d, w') /\
    exists main_loss_dict w1 aux_o aux_loss_dict,
      compute_loss (ext := example_ext) example_criterion example_outputs
        example_targets (PyInt 299) 0 two_processes = Some (main_loss_dict, w1) /\
      aux_outputs example_outputs = Some aux_o /\
      compute_loss (ext := example_ext) example_criterion aux_o example_targets
        (PyInt 299) 0 w1 = Some (aux_loss_dict, w') /\
      dict_get d "loss_box_aux" = dict_get aux_loss_dict "loss_box" /\
      dict_mem aux_loss_dict "loss_box" = true /\
      dict_mem d "loss_box_aux_aux"
      = (0 >=? max_epoch example_criterion - no_aug_epoch example_criterion - 1)%Z.
Proof.
  eexists. eexists. split; [run_criterion|].
  eapply (Criterion_call_branches (ext := example_ext) example_criterion
            example_outputs example_targets 299 two_processes).
  run_criterion.
Defined.

(** ** The criterion step of [build_e2eyolo] *)

Lemma build_e2eyolo_criterion_not_trainable {Model Crit : Type} (model : Model)
    (imported : Signature) (built : Crit) :
  build_e2eyolo_criterion model imported built false = Some (model, None).
Proof. reflexivity. Qed.

(** In trainable mode the build raises exactly when the imported
    [build_criterion] does not take three positional arguments. *)
Lemma build_e2eyolo_criterion_trainable {Model Crit : Type} (model : Model)
    (imported : Signature) (built : Crit) :
  build_e2eyolo_criterion model imported built true
  = if accepts imported 3 then Some (model, Some built) else None.
Proof. reflexivity. Qed.

(** The [build_criterion] of [ctrnet/loss.py] takes four arguments, not
    three. *)
Lemma ctrnet_build_criterion_arity :
  accepts ctrnet_build_criterion_signature 4 = true /\
  accepts ctrnet_build_criterion_signature 3 = false.
Proof. split; reflexivity. Qed.

(** * Further properties of the criterion *)

(** ** Flattening the class logits *)

Lemma chunks_fuel_concat (n : nat) (rows : list (list R)) (fuel : nat) :
  (0 < n)%nat -> Forall (fun r => length r = n) rows ->
  (length rows <= fuel)%nat ->
  chunks_fuel fuel n (concat rows) = rows.
Proof.
  intros Hn Hrows. revert fuel.
  induction Hrows as [|r rows Hr Hrows IH]; intros fuel Hfuel.
  - destruct fuel; reflexivity.
  - destruct fuel as [|fuel]; [simpl in Hfuel; lia|].
    simpl in Hfuel. cbn [concat chunks_fuel].
    destruct (r ++ concat rows) as [|a l] eqn:E.
    + apply (f_equal (@length R)) in E. rewrite length_app in E. simpl in E. lia.
    + rewrite <- E.
      rewrite firstn_app, skipn_app, Hr, Nat.sub_diag.
      rewrite <- Hr at 1 3. rewrite firstn_all, skipn_all.
      cbn [firstn skipn app]. rewrite app_nil_r. f_equal. apply IH. lia.
Qed.

Lemma length_concat_rows {A : Type} (n : nat) (rows : list (list A)) :
  Forall (fun r => length r = n) rows ->
  length (concat rows) = (length rows * n)%nat.
Proof.
  induction 1 as [|r rows Hr Hrows IH]; [reflexivity|].
  cbn [concat length]. rewrite length_app, IH, Hr. reflexivity.
Qed.

(** The rows of [cls_preds.view(-1, num_classes)] are the anchors'
    logit rows, image after image, in the order of the concatenated
    assignment: row [i] of the view is anchor [i] of the batch. *)
Theorem view_keeps_the_anchor_rows (n : nat) (cls_preds : list (list (list R))) :
  (0 < n)%nat ->
  Forall (fun row => length row = n) (concat cls_preds) ->
  view_rows n (concat (concat cls_preds)) = Some (mkTensor2 n (concat cls_preds)).
Proof.
  intros Hn Hrows. unfold view_rows. destruct n as [|n']; [lia|].
  set (n := S n') in *.
  rewrite (length_concat_rows n) by exact Hrows.
  rewrite Nat.Div0.mod_mul. cbn [Nat.eqb]. do 2 f_equal.
  apply chunks_fuel_concat; [exact Hn | exact Hrows |].
  unfold n. nia.
Qed.

Lemma view_keeps_the_anchor_rows_on_example :
  view_rows 2 (concat (concat (pred_cls example_outputs)))
  = Some (mkTensor2 2 (concat (pred_cls example_outputs))).
Proof.
  apply (view_keeps_the_anchor_rows 2 (pred_cls example_outputs)).
  - lia.
  - repeat constructor.
Defined.

(** ** When the label assignment raises *)

Lemma mapM_returns_iff {A B : Type} (f : A -> option B) (l : list A) :
  (exists bs, mapM f l = Some bs) <-> (forall a, In a l -> exists b, f a = Some b).
Proof.
  induction l as [|a l IH]; simpl.
  - split; [intros _ a [] | intros _; now exists []].
  - split.
    + intros [bs H]. apply bind_Some in H as (b & Hb & H).
      apply bind_Some in H as (bs' & Hbs' & _).
      intros a' [<-|Ha']; [now exists b|].
      apply IH; [now exists bs' | exact Ha'].
    + intros H. destruct (H a (or_introl eq_refl)) as [b Hb].
      destruct (proj2 IH (fun a' Ha' => H a' (or_intror Ha'))) as [bs' Hbs'].
      exists (b :: bs'). now rewrite Hb, Hbs'.
Qed.

Lemma mapM_length {A B : Type} (f : A -> option B) (l : list A) (bs : list B) :
  mapM f l = Some bs -> length bs = length l.
Proof. intros H. now apply mapM_Some_pointwise in H. Qed.

Lemma assign_image_returns_iff (self : Criterion) (outputs : Outputs)
    (targets : list Target) (aux_loss : PyArg) (batch_idx : nat) :
  (exists r, assign_image self outputs targets aux_loss batch_idx = Some r) <->
  (batch_idx < length targets)%nat /\
  (batch_idx < length (pred_cls outputs))%nat /\
  (batch_idx < length (pred_box outputs))%nat.
Proof.
  unfold assign_image. rewrite <- !nth_error_Some.
  destruct (nth_error targets batch_idx) as [tgt|]; cbn [bind].
  - destruct (nth_error (pred_cls outputs) batch_idx) as [c|]; cbn [bind].
    + destruct (nth_error (pred_box outputs) batch_idx) as [b|]; cbn [bind].
      * split; [intros _; repeat split; discriminate|].
        intros _. destruct (negb (truthy aux_loss)); eexists; reflexivity.
      * split; [intros [r H]; discriminate H | intros (_ & _ & H); now elim H].
    + split; [intros [r H]; discriminate H | intros (_ & H & _); now elim H].
  - split; [intros [r H]; discriminate H | intros (H & _); now elim H].
Qed.

(** The label assignment of a batch returns exactly when the batch is
    not empty and every image of it has a target and box predictions:
    on an empty batch [torch.cat] raises, and an image without a target
    is an IndexError. *)
Theorem assign_batch_returns_iff (self : Criterion) (outputs : Outputs)
    (targets : list Target) (aux_loss : PyArg) :
  (exists r, assign_batch self outputs targets aux_loss = Some r) <->
  (0 < length (pred_cls outputs))%nat /\
  (length (pred_cls outputs) <= length targets)%nat /\
  (length (pred_cls outputs) <= length (pred_box outputs))%nat.
Proof.
  unfold assign_batch. set (bs := length (pred_cls outputs)).
  split.
  - intros [r H]. apply bind_Some in H as (results & Hres & H).
    pose proof (mapM_length _ _ _ Hres) as Hlen. rewrite length_seq in Hlen.
    assert (Hbs : (0 < bs)%nat).
    { destruct results as [|r0 results]; [discriminate H|]. simpl in Hlen. lia. }
    split; [exact Hbs|].
    assert (Hlast : exists r', assign_image self outputs targets aux_loss (bs - 1)
                               = Some r').
    { apply (proj1 (mapM_returns_iff _ _) (ex_intro _ results Hres)).
      apply in_seq. lia. }
    apply assign_image_returns_iff in Hlast. lia.
  - intros (Hbs & Htargets & Hboxes).
    assert (Hres : exists results,
               mapM (assign_image self outputs targets aux_loss) (seq 0 bs)
               = Some results).
    { apply mapM_returns_iff. intros i Hi. apply in_seq in Hi.
      apply assign_image_returns_iff. fold bs. lia. }
    destruct Hres as [results Hres]. rewrite Hres. cbn [bind].
    pose proof (mapM_length _ _ _ Hres) as Hlen. rewrite length_seq in Hlen.
    destruct results as [|r0 results]; [simpl in Hlen; lia|].
    eexists. reflexivity.
Qed.

Section RaisesOnBadBatch.

Context {ext : Externals}.

(** [compute_loss] raises whenever the label assignment does: on an
    empty batch and on a batch with fewer targets than images. *)
Theorem compute_loss_raises_without_assignment (self : Criterion)
    (outputs : Outputs) (targets : list Target) (aux_loss : PyArg)
    (epoch : Z) (w : World) :
  length (pred_cls outputs) = 0%nat \/
  (length targets < length (pred_cls outputs))%nat ->
  compute_loss self outputs targets aux_loss epoch w = None.
Proof.
  intros Hbad.
  destruct (assign_batch self outputs targets aux_loss) as [r|] eqn:Ha.
  - exfalso.
    pose proof (proj1 (assign_batch_returns_iff self outputs targets aux_loss)
                  (ex_intro _ r Ha)) as Hok.
    lia.
  - unfold compute_loss, bindM, lift. now rewrite Ha.
Qed.

End RaisesOnBadBatch.

Lemma compute_loss_raises_without_assignment_on_example :
  compute_loss (ext := example_ext) example_criterion example_outputs []
    (PyBool false) 0 single_process = None.
Proof.
  apply (compute_loss_raises_without_assignment (ext := example_ext)).
  right. simpl. lia.
Defined.

(** ** When the classification loss raises *)

Section LossClassesRange.

Context {ext : Externals}.

(** The quality focal loss when every foreground anchor has a row of
    logits and a score; an anchor without a label is background. *)
Lemma loss_classes_in_range (pred_cls : Tensor2) (label : list Z)
    (score : list R) (beta : R) :
  t2_wf pred_cls ->
  (forall i, In i (nonzero (fg_mask (t2_cols pred_cls) label)) ->
             (i < length score)%nat /\ (i < length (t2_rows pred_cls))%nat) ->
  exists L,
    loss_classes pred_cls (label, score) beta = Some L /\
    t2_shape L (length (t2_rows pred_cls)) (t2_cols pred_cls) /\
    forall i j x,
      t2_get pred_cls i j = Some x ->
      t2_get L i j
      = Some (quality_focal_entry beta (t2_cols pred_cls) x
                (nth i label (Z.of_nat (t2_cols pred_cls))) (nth i score 0) j).
Proof.
  intros Hwf Hrange.
  set (n := length (t2_rows pred_cls)) in *.
  set (c := t2_cols pred_cls) in *.
  assert (Hshape : t2_shape pred_cls n c) by (split; [reflexivity | exact Hwf]).
  unfold loss_classes. fold c.
  set (pos := nonzero (fg_mask c label)) in *.
  assert (Hpos : forall i, In i pos ->
            exists l, nth_error label i = Some l /\ is_fg c l = true)
    by (intros i Hi; now apply In_pos_inds).
  set (col := fun i => Z.to_nat (nth i label 0%Z)).
  assert (Hcol : forall i, In i pos -> (col i < c)%nat).
  { intros i Hi. destruct (Hpos i Hi) as (l & Hl & Hfg). unfold col.
    rewrite (nth_error_nth _ _ _ Hl). unfold is_fg in Hfg.
    apply andb_prop in Hfg as [H0 H1].
    apply Z.leb_le in H0. apply Z.ltb_lt in H1. lia. }
  set (xat := fun i => nth (col i) (nth i (t2_rows pred_cls) []) 0).
  set (sat := fun i => nth i score 0).
  assert (Hxat : forall i, In i pos -> t2_get pred_cls i (col i) = Some (xat i)).
  { intros i Hi.
    destruct (t2_get_in_range pred_cls n c i (col i) Hshape
                (proj2 (Hrange i Hi)) (Hcol i Hi)) as [x Hx].
    rewrite Hx. f_equal. symmetry. now apply t2_get_nth. }
  rewrite (index_rows_in_range label pos 0%Z).
  2:{ intros i Hi. destruct (Hpos i Hi) as (l & Hl & _).
      apply nth_error_Some. now rewrite Hl. }
  cbn [bind]. rewrite map_map. fold col.
  rewrite (index_rows_in_range score pos 0)
    by (intros i Hi; now apply Hrange).
  cbn [bind]. fold sat.
  unfold index2. rewrite combine_map_r, !mapM_map. cbn [fst snd].
  rewrite (mapM_pointwise _ (fun i => sigmoid (xat i)))
    by (intros i Hi; rewrite t2_get_map, (Hxat i Hi); reflexivity).
  cbn [bind].
  rewrite (mapM_pointwise _ xat) by exact Hxat.
  cbn [bind].
  rewrite !map2_map_map, map_map, map2_map_map, combine_map_map.
  set (val := fun i =>
    binary_cross_entropy_with_logits (xat i) (sat i) *
    tensor_pow (Rabs (sat i - sigmoid (xat i))) beta).
  set (ce_loss := t2_map2 Rmult _ _).
  assert (Hce : t2_shape ce_loss n c).
  { unfold ce_loss, t2_new_zeros.
    repeat first [apply t2_shape_map2 | apply t2_shape_map | exact Hshape]. }
  destruct (index_put2_by_row col val n c pos ce_loss Hce
              (fun i Hi => conj (proj2 (Hrange i Hi)) (Hcol i Hi)))
    as (L & HL & HLshape & HLcols & HLget).
  exists L. split; [exact HL|]. split; [exact HLshape|].
  intros i j x Hx. rewrite HLget.
  assert (Hbg : is_fg c (Z.of_nat c) = false)
    by (unfold is_fg; rewrite Z.ltb_irrefl; apply andb_false_r).
  assert (Hin : existsb (Nat.eqb i) pos = is_fg c (nth i label (Z.of_nat c))).
  { destruct (nth_error label i) as [l|] eqn:Hl.
    - rewrite (nth_error_nth _ _ _ Hl).
      destruct (is_fg c l) eqn:Hfg.
      + apply existsb_exists. exists i. split; [|apply Nat.eqb_refl].
        apply In_pos_inds. now exists l.
      + destruct (existsb (Nat.eqb i) pos) eqn:Ex; [|reflexivity].
        apply existsb_exists in Ex as (i' & Hi' & Heq).
        apply Nat.eqb_eq in Heq. subst i'.
        destruct (Hpos i Hi') as (l' & Hl' & Hfg'). congruence.
    - rewrite (nth_overflow _ _ (proj1 (nth_error_None _ _) Hl)), Hbg.
      destruct (existsb (Nat.eqb i) pos) eqn:Ex; [|reflexivity].
      apply existsb_exists in Ex as (i' & Hi' & Heq).
      apply Nat.eqb_eq in Heq. subst i'.
      destruct (Hpos i Hi') as (l' & Hl' & _). congruence. }
  unfold quality_focal_entry. rewrite Hin, (Nat.eqb_sym j).
  destruct (is_fg c (nth i label (Z.of_nat c))) eqn:Hfg; cbn [andb].
  - assert (Hcoli : col i = Z.to_nat (nth i label (Z.of_nat c))).
    { unfold col. destruct (nth_error label i) as [l|] eqn:Hl.
      - now rewrite !(nth_error_nth _ _ _ Hl).
      - rewrite (nth_overflow _ (Z.of_nat c)
                   (proj1 (nth_error_None _ _) Hl)) in Hfg. congruence. }
    rewrite Hcoli.
    destruct (Z.to_nat (nth i label (Z.of_nat c)) =? j)%nat eqn:Ej.
    + apply Nat.eqb_eq in Ej. unfold val, xat, sat. rewrite Hcoli, Ej.
      rewrite (t2_get_nth _ _ _ _ Hx). reflexivity.
    + unfold ce_loss, t2_new_zeros.
      rewrite !t2_get_map2, !t2_get_map, Hx. reflexivity.
  - unfold ce_loss, t2_new_zeros.
    rewrite !t2_get_map2, !t2_get_map, Hx. reflexivity.
Qed.

(** [loss_classes] returns exactly when every foreground anchor (label
    in [0, number of class channels)) has a score and a row of logits;
    it raises an IndexError otherwise.  Background labels may outnumber
    the rows and the scores. *)
Theorem loss_classes_returns_iff (pred_cls : Tensor2) (label : list Z)
    (score : list R) (beta : R) :
  t2_wf pred_cls ->
  ((exists L, loss_classes pred_cls (label, score) beta = Some L) <->
   (forall i l, nth_error label i = Some l ->
                is_fg (t2_cols pred_cls) l = true ->
                (i < length score)%nat /\ (i < length (t2_rows pred_cls))%nat)).
Proof.
  intros Hwf. split.
  - intros [L H] i l Hl Hfg.
    assert (Hi : In i (nonzero (fg_mask (t2_cols pred_cls) label)))
      by (apply In_pos_inds; now exists l).
    unfold loss_classes in H.
    apply bind_Some in H as (pos_label & Hpl & H).
    apply bind_Some in H as (score_pos & Hsp & H).
    apply bind_Some in H as (sig_pos & _ & H).
    apply bind_Some in H as (pred_pos & Hpp & _).
    apply (index_rows_Some _ _ _ 0) in Hsp as [Hsp _].
    split; [now apply Hsp|].
    apply (index_rows_Some _ _ _ 0%Z) in Hpl as [_ ->].
    unfold index2 in Hpp. rewrite map_map, combine_map_r, mapM_map in Hpp.
    destruct (proj1 (mapM_returns_iff _ _) (ex_intro _ _ Hpp) i Hi) as [x Hx].
    cbn [fst snd] in Hx. unfold t2_get in Hx.
    apply bind_Some in Hx as (row & Hrow & _).
    apply nth_error_Some. now rewrite Hrow.
  - intros Hrange.
    destruct (loss_classes_in_range pred_cls label score beta Hwf) as (L & HL & _).
    + intros i Hi. apply In_pos_inds in Hi as (l & Hl & Hfg). eauto.
    + now exists L.
Qed.

End LossClassesRange.

Lemma loss_classes_returns_iff_on_example :
  (exists L, loss_classes (ext := example_ext) (mkTensor2 2 [[0; 1]])
               ([2%Z; 0%Z], [1 / 2]) 2.0 = Some L) <->
  (forall i l, nth_error [2%Z; 0%Z] i = Some l ->
               is_fg 2 l = true ->
               (i < length [1 / 2])%nat /\ (i < length [[0; 1]])%nat).
Proof.
  apply (loss_classes_returns_iff (ext := example_ext) (mkTensor2 2 [[0; 1]])
           [2%Z; 0%Z] [1 / 2] 2.0).
  repeat constructor.
Defined.

(** ** When [compute_loss] returns *)

Lemma normalize_num_fgs_returns (assign_metrics : list R) (w : World) :
  (is_dist_avail_and_initialized w = true -> pending w <> []) ->
  exists num_fgs w', normalize_num_fgs assign_metrics w = Some (num_fgs, w').
Proof.
  intros Hpending. unfold normalize_num_fgs, bindM, all_reduce, ret.
  destruct (is_dist_avail_and_initialized w).
  - destruct (pending w) as [|others rest]; [now elim Hpending|].
    eexists. eexists. reflexivity.
  - eexists. eexists. reflexivity.
Qed.

Lemma pos_inds_in_range (n_cls : nat) (cls_targets : list Z) (i : nat) :
  In i (nonzero (fg_mask n_cls cls_targets)) -> (i < length cls_targets)%nat.
Proof.
  intros Hi. apply In_pos_inds in Hi as (l & Hl & _).
  apply nth_error_Some. now rewrite Hl.
Qed.

Section ComputeLossReturns.

Context {ext : Externals}.

(** [compute_loss] raises nothing on a batch whose assignment succeeded
    and is aligned with the predictions, anchor for anchor (with a
    collective to join when a process group is initialised): whatever
    the labels, foreground or background, and whatever the epoch. *)
Theorem compute_loss_returns (self : Criterion) (outputs : Outputs)
    (targets : list Target) (aux_loss : PyArg) (epoch : Z) (w : World)
    (cls_targets : list Z) (box_targets : list Row4) (metrics : list R) :
  assign_batch self outputs targets aux_loss
    = Some (cls_targets, box_targets, metrics) ->
  aligned_batch self outputs cls_targets box_targets metrics ->
  (is_dist_avail_and_initialized w = true -> pending w <> []) ->
  exists d w', compute_loss self outputs targets aux_loss epoch w = Some (d, w').
Proof.
  intros Ha (Hn & Hbt & Hm & Hcls & Hrows & Hbox & Hreg & Hanc & Hstr) Hpending.
  set (n := length cls_targets) in *.
  set (pos_inds := nonzero (fg_mask (num_classes self) cls_targets)).
  assert (Hpos : forall i, In i pos_inds -> (i < n)%nat)
    by (intros i Hi; now apply pos_inds_in_range in Hi).
  destruct (normalize_num_fgs_returns metrics w Hpending) as (num_fgs & w' & Hnum).
  pose proof (view_keeps_the_anchor_rows (num_classes self) (pred_cls outputs)
                Hn Hrows) as Hview.
  destruct (loss_classes_in_range
              (mkTensor2 (num_classes self) (concat (pred_cls outputs)))
              cls_targets metrics 2.0 Hrows) as (L & HL & _).
  { intros i Hi. cbn [t2_cols t2_rows] in *. rewrite Hm, Hcls.
    split; now apply Hpos. }
  unfold compute_loss, bindM, lift. rewrite Ha, Hnum, Hview, HL.
  fold pos_inds.
  rewrite (index_rows_in_range (concat (pred_box outputs)) pos_inds (mkRow4 0 0 0 0))
    by (intros i Hi; rewrite Hbox; now apply Hpos).
  rewrite (index_rows_in_range box_targets pos_inds (mkRow4 0 0 0 0))
    by (intros i Hi; rewrite Hbt; now apply Hpos).
  destruct (epoch >=? max_epoch self - no_aug_epoch self - 1)%Z.
  - unfold aux_regression_sum.
    rewrite (index_rows_in_range (concat (pred_reg outputs)) pos_inds (mkRow4 0 0 0 0))
      by (intros i Hi; rewrite Hreg; now apply Hpos).
    cbn [bind].
    rewrite (index_rows_in_range _ pos_inds (mkRow2 0 0))
      by (intros i Hi; rewrite Hanc; now apply Hpos).
    cbn [bind].
    rewrite (index_rows_in_range _ pos_inds 0)
      by (intros i Hi; rewrite Hstr; now apply Hpos).
    cbn [bind]. eexists. eexists. reflexivity.
  - eexists. eexists. reflexivity.
Qed.

End ComputeLossReturns.

Lemma compute_loss_returns_on_example :
  exists d w',
    compute_loss (ext := example_ext) example_criterion example_outputs
      example_targets (PyBool true) 299 two_processes = Some (d, w').
Proof.
  eapply (compute_loss_returns (ext := example_ext) example_criterion
            example_outputs example_targets (PyBool true) 299 two_processes).
  - run_criterion.
  - unfold aligned_batch. cbn. repeat split; try lia. repeat constructor.
  - discriminate.
Defined.

(** ** The collectives of a step *)

Lemma normalize_num_fgs_world (assign_metrics : list R) (w w' : World) (num_fgs : R) :
  normalize_num_fgs assign_metrics w = Some (num_fgs, w') ->
  is_dist_avail_and_initialized w' = is_dist_avail_and_initialized w /\
  get_world_size w' = get_world_size w /\
  pending w' = if is_dist_avail_and_initialized w then tl (pending w)
               else pending w.
Proof.
  unfold normalize_num_fgs, bindM, all_reduce, ret.
  destruct (is_dist_avail_and_initialized w) eqn:Hd.
  - destruct (pending w) as [|others rest]; [discriminate|].
    intros H. injection H as _ <-. cbn. auto.
  - intros H. injection H as _ <-. rewrite Hd. auto.
Qed.

Section Collectives.

Context {ext : Externals}.

Lemma compute_loss_world (self : Criterion) (outputs : Outputs)
    (targets : list Target) (aux_loss : PyArg) (epoch : Z)
    (w w' : World) (d : Dict) :
  compute_loss self outputs targets aux_loss epoch w = Some (d, w') ->
  is_dist_avail_and_initialized w' = is_dist_avail_and_initialized w /\
  get_world_size w' = get_world_size w /\
  pending w' = if is_dist_avail_and_initialized w then tl (pending w)
               else pending w.
Proof.
  intros H. apply compute_loss_inv in H
    as (cls_targets & box_targets & metrics & num_fgs & cls_preds & L & bp & bt & H).
  cbv zeta in H. destruct H as (_ & Hn & _).
  now apply normalize_num_fgs_world in Hn.
Qed.

(** A step of the criterion joins exactly two all-reduce collectives when
    a process group is initialised (one per branch) and none otherwise;
    it leaves the process group as it was.  With fewer than two
    collectives to join it does not return. *)
Theorem call_joins_two_collectives (self : Criterion) (outputs : Outputs)
    (targets : list Target) (epoch : Z) (w w' : World) (d : Dict) :
  Criterion_call self outputs targets epoch w = Some (d, w') ->
  is_dist_avail_and_initialized w' = is_dist_avail_and_initialized w /\
  get_world_size w' = get_world_size w /\
  (is_dist_avail_and_initialized w = false -> pending w' = pending w) /\
  (is_dist_avail_and_initialized w = true ->
   (2 <= length (pending w))%nat /\ pending w' = tl (tl (pending w))).
Proof.
  intros H.
  apply Criterion_call_inv in H
    as (md & w1 & aux_o & ad & ml & al & Hmain & _ & Haux & _).
  pose proof Hmain as Hmain'. pose proof Haux as Haux'.
  apply compute_loss_world in Hmain as (Hd1 & Hs1 & Hp1).
  apply compute_loss_world in Haux as (Hd2 & Hs2 & Hp2).
  split; [congruence|]. split; [congruence|]. split.
  - intros Hd. rewrite Hd1, Hd in Hp2. rewrite Hd in Hp1. congruence.
  - intros Hd. rewrite Hd1, Hd in Hp2. rewrite Hd in Hp1.
    split; [|congruence].
    apply compute_loss_inv in Hmain'
      as (c1 & b1 & m1 & n1 & p1 & L1 & bp1 & bt1 & Hmain').
    cbv zeta in Hmain'. destruct Hmain' as (_ & Hn1 & _).
    apply compute_loss_inv in Haux'
      as (c2 & b2 & m2 & n2 & p2 & L2 & bp2 & bt2 & Haux').
    cbv zeta in Haux'. destruct Haux' as (_ & Hn2 & _).
    unfold normalize_num_fgs, bindM, all_reduce in Hn1, Hn2.
    rewrite Hd in Hn1. rewrite Hd1, Hd in Hn2.
    destruct (pending w) as [|o1 rest1]; [discriminate Hn1|].
    cbn [tl] in Hp1. rewrite Hp1 in Hn2.
    destruct rest1 as [|o2 rest2]; [discriminate Hn2|]. simpl. lia.
Qed.

End Collectives.

Lemma call_joins_two_collectives_on_example :
  exists d w',
    Criterion_call (ext := example_ext) example_criterion example_outputs
      example_targets 0 two_processes = Some (d, w') /\
    is_dist_avail_and_initialized w' = is_dist_avail_and_initialized two_processes /\
    get_world_size w' = get_world_size two_processes /\
    (is_dist_avail_and_initialized two_processes = false ->
     pending w' = pending two_processes) /\
    (is_dist_avail_and_initialized two_processes = true ->
     (2 <= length (pending two_processes))%nat /\
     pending w' = tl (tl (pending two_processes))).
Proof.
  eexists. eexists. split; [run_criterion|].
  eapply (call_joins_two_collectives (ext := example_ext) example_criterion
            example_outputs example_targets 0 two_processes).
  run_criterion.
Defined.

(** ** A batch without foreground *)

Lemma no_foreground_no_pos_inds (n_cls : nat) (cls_targets : list Z) :
  (forall l, In l cls_targets -> is_fg n_cls l = false) ->
  nonzero (fg_mask n_cls cls_targets) = [].
Proof.
  intros Hbg. destruct (nonzero (fg_mask n_cls cls_targets)) as [|i pos] eqn:E;
    [reflexivity|].
  assert (Hi : In i (nonzero (fg_mask n_cls cls_targets)))
    by (rewrite E; now left).
  apply In_pos_inds in Hi as (l & Hl & Hfg).
  apply nth_error_In in Hl. rewrite (Hbg l Hl) in Hfg. discriminate Hfg.
Qed.

Section NoForeground.

Context {ext : Externals}.

(** When no anchor of the batch is assigned a label in
    [0, num_classes) the box loss is 0, so is the auxiliary box loss
    when it is active, and ['losses'] is the weighted classification
    loss alone: nothing raises and nothing is divided by zero. *)
Theorem no_foreground_no_box_loss (self : Criterion) (outputs : Outputs)
    (targets : list Target) (aux_loss : PyArg) (epoch : Z)
    (w w' : World) (d : Dict)
    (cls_targets : list Z) (box_targets : list Row4) (metrics : list R) :
  compute_loss self outputs targets aux_loss epoch w = Some (d, w') ->
  assign_batch self outputs targets aux_loss
    = Some (cls_targets, box_targets, metrics) ->
  (forall l, In l cls_targets -> is_fg (num_classes self) l = false) ->
  dict_get d "loss_box" = Some 0 /\
  (dict_mem d "loss_box_aux" = true -> dict_get d "loss_box_aux" = Some 0) /\
  exists loss_cls,
    dict_get d "loss_cls" = Some loss_cls /\
    dict_get d "losses" = Some (loss_cls_weight self * loss_cls).
Proof.
  intros H Ha Hbg. apply compute_loss_inv in H
    as (ct & bt & ms & num_fgs & cls_preds & L & bp & btp & H).
  cbv zeta in H. destruct H as (Ha' & _ & _ & _ & Hbp & Hbtp & H).
  rewrite Ha in Ha'. injection Ha' as <- <- <-.
  rewrite (no_foreground_no_pos_inds _ _ Hbg) in *.
  cbn in Hbp, Hbtp. injection Hbp as <-. injection Hbtp as <-.
  assert (Hzero : tsum (loss_bboxes [] []) / num_fgs = 0)
    by (cbn; unfold Rdiv; lra).
  destruct (epoch >=? max_epoch self - no_aug_epoch self - 1)%Z.
  - destruct H as (aux_sum & Haux & ->).
    cbn in Haux. injection Haux as <-.
    assert (Hzero' : 0 / num_fgs = 0) by (unfold Rdiv; lra).
    split; [cbn [dict_get dict_of fold_left dict_set fst snd String.eqb
                 Ascii.eqb Bool.eqb]; now rewrite Hzero|].
    split; [intros _; cbn; now rewrite Hzero'|].
    exists (t2_sum L / num_fgs). split; [reflexivity|].
    cbn. f_equal. unfold Rdiv. lra.
  - subst d.
    split; [cbn [dict_get dict_of fold_left dict_set fst snd String.eqb
                 Ascii.eqb Bool.eqb]; now rewrite Hzero|].
    split; [intros Hmem; discriminate Hmem|].
    exists (t2_sum L / num_fgs). split; [reflexivity|].
    cbn. f_equal. unfold Rdiv. lra.
Qed.

End NoForeground.

Lemma no_foreground_no_box_loss_on_example :
  exists d w',
    compute_loss (ext := example_ext) example_criterion example_outputs
      [mkTarget [] []] (PyBool false) 299 single_process = Some (d, w') /\
    dict_get d "loss_box" = Some 0 /\
    (dict_mem d "loss_box_aux" = true -> dict_get d "loss_box_aux" = Some 0) /\
    exists loss_cls,
      dict_get d "loss_cls" = Some loss_cls /\
      dict_get d "losses" = Some (loss_cls_weight example_criterion * loss_cls).
Proof.
  eexists. eexists. split; [run_criterion|].
  eapply (no_foreground_no_box_loss (ext := example_ext) example_criterion
            example_outputs [mkTarget [] []] (PyBool false) 299 single_process).
  - run_criterion.
  - run_criterion.
  - intros l [<-|[<-|[]]]; reflexivity.
Defined.

(** ** The auxiliary box loss: sign and zero *)

Lemma tsum_nonneg (l : list R) : Forall (fun x => 0 <= x) l -> 0 <= tsum l.
Proof.
  induction 1 as [|x l Hx Hl IH]; cbn; [lra|]. unfold tsum in IH. lra.
Qed.

Lemma l1_loss_nonneg (a b : Row4) : 0 <= row4_sum (l1_loss a b).
Proof.
  unfold row4_sum, l1_loss. cbn [r4_0 r4_1 r4_2 r4_3].
  pose proof (Rabs_pos (r4_0 a - r4_0 b)). pose proof (Rabs_pos (r4_1 a - r4_1 b)).
  pose proof (Rabs_pos (r4_2 a - r4_2 b)). pose proof (Rabs_pos (r4_3 a - r4_3 b)).
  lra.
Qed.

Lemma Forall_map2 {A B C : Type} (P : C -> Prop) (f : A -> B -> C)
    (l1 : list A) (l2 : list B) :
  (forall a b, P (f a b)) -> Forall P (map2 f l1 l2).
Proof.
  intros Hf. revert l2. induction l1 as [|a l1 IH]; intros [|b l2]; cbn;
    constructor; auto.
Qed.

Section AuxLossSign.

Context {ext : Externals}.

Lemma loss_bboxes_aux_sum_nonneg (pred_reg gt_box : list Row4)
    (anchors : list Row2) (stride_tensors : list R) :
  0 <= tsum (map row4_sum (loss_bboxes_aux pred_reg gt_box anchors stride_tensors)).
Proof.
  apply tsum_nonneg. apply Forall_map. unfold loss_bboxes_aux.
  apply Forall_map2. intros a b. apply l1_loss_nonneg.
Qed.

(** On a batch whose foreground anchors are assigned boxes of positive
    width and height, and whose strides are positive (so that the
    logarithm of every encoded size is that of a positive number), the
    ['loss_box_aux'] entry of [compute_loss], when there is one, is not
    negative. *)
Theorem loss_box_aux_is_nonnegative (self : Criterion) (outputs : Outputs)
    (targets : list Target) (aux_loss : PyArg) (epoch : Z)
    (w w' : World) (d : Dict)
    (cls_targets : list Z) (box_targets : list Row4) (metrics : list R) (v : R) :
  compute_loss self outputs targets aux_loss epoch w = Some (d, w') ->
  assign_batch self outputs targets aux_loss
    = Some (cls_targets, box_targets, metrics) ->
  (forall i l b,
      nth_error cls_targets i = Some l ->
      is_fg (num_classes self) l = true ->
      nth_error box_targets i = Some b ->
      proper_box b) ->
  Forall (fun s => 0 < s) (stride_tensors outputs) ->
  dict_get d "loss_box_aux" = Some v ->
  0 <= v.
Proof.
  intros H _ _ _ Hv. apply compute_loss_inv in H
    as (ct & bt & ms & num_fgs & cls_preds & L & bp & btp & H).
  cbv zeta in H. destruct H as (_ & Hn & _ & _ & _ & _ & H).
  apply normalize_num_fgs_value in Hn.
  assert (Hnum : 1 <= num_fgs).
  { rewrite Hn. eapply Rle_trans; [|apply Rmax_l]. lra. }
  destruct (epoch >=? max_epoch self - no_aug_epoch self - 1)%Z.
  - destruct H as (aux_sum & Haux & ->).
    cbn in Hv. injection Hv as <-.
    unfold aux_regression_sum in Haux.
    apply bind_Some in Haux as (rp & _ & Haux).
    apply bind_Some in Haux as (ap & _ & Haux).
    apply bind_Some in Haux as (sp & _ & Haux). injection Haux as <-.
    apply Rmult_le_pos; [apply loss_bboxes_aux_sum_nonneg|].
    apply Rlt_le, Rinv_0_lt_compat. lra.
  - subst d. discriminate Hv.
Qed.

(** A row of the auxiliary box loss is zero exactly when the raw
    regression prediction is the encoded target of its anchor. *)
Theorem loss_bboxes_aux_zero_iff (pred_reg gt_box : list Row4)
    (anchors : list Row2) (stride_tensors : list R) (k : nat)
    (p g : Row4) (a : Row2) (s : R) :
  nth_error pred_reg k = Some p ->
  nth_error gt_box k = Some g ->
  nth_error anchors k = Some a ->
  nth_error stride_tensors k = Some s ->
  (nth_error (loss_bboxes_aux pred_reg gt_box anchors stride_tensors) k
   = Some (mkRow4 0 0 0 0) <->
   p = encoded_target g a s).
Proof.
  intros Hp Hg Ha Hs. unfold loss_bboxes_aux.
  repeat first [rewrite nth_error_map2 | rewrite nth_error_map
               | rewrite Hp | rewrite Hg | rewrite Ha | rewrite Hs
               | progress cbn [option_map]].
  unfold l1_loss, encoded_target, cat2, row2_div, row2_sub, row2_scale,
    row2_add, row2_map, lo2, hi2. cbn [r4_0 r4_1 r4_2 r4_3 r2_0 r2_1].
  assert (Habs : forall x y, Rabs (x - y) = 0 <-> x = y).
  { intros x y. split.
    - intros H. destruct (Req_dec (x - y) 0) as [E|E]; [lra|].
      now apply Rabs_no_R0 in E.
    - intros ->. replace (y - y) with 0 by lra. apply Rabs_R0. }
  destruct p as [p0 p1 p2 p3]. cbn [r4_0 r4_1 r4_2 r4_3]. split.
  - intros H. injection H as H0 H1 H2 H3.
    apply (proj1 (Habs _ _)) in H0, H1, H2, H3. subst.
    f_equal; try reflexivity; apply (f_equal (fun t => t / s)); lra.
  - intros H. injection H as -> -> -> ->.
    do 2 f_equal; apply Habs; try reflexivity;
      apply (f_equal (fun t => t / s)); lra.
Qed.

End AuxLossSign.

Lemma loss_box_aux_is_nonnegative_on_example :
  exists d w' v,
    compute_loss (ext := example_ext) example_criterion example_outputs
      example_targets (PyBool false) 299 single_process = Some (d, w') /\
    dict_get d "loss_box_aux" = Some v /\ 0 <= v.
Proof.
  do 3 eexists. split; [run_criterion|]. split; [reflexivity|].
  eapply (loss_box_aux_is_nonnegative (ext := example_ext) example_criterion
            example_outputs example_targets (PyBool false) 299 single_process).
  - run_criterion.
  - run_criterion.
  - intros i l b _ _ Hb.
    assert (Hbox : b = example_box).
    { destruct i as [|[|i]]; cbn in Hb;
        [now injection Hb as <- | now injection Hb as <- |].
      destruct i; discriminate Hb. }
    subst b. unfold proper_box, example_box. cbn. lra.
  - repeat constructor; cbn; lra.
  - reflexivity.
Defined.

Lemma loss_bboxes_aux_zero_iff_on_example :
  nth_error
    (loss_bboxes_aux (ext := example_ext)
       [encoded_target (ext := example_ext) (mkRow4 0 0 16 8) (mkRow2 4 4) 8]
       [mkRow4 0 0 16 8] [mkRow2 4 4] [8]) 0
  = Some (mkRow4 0 0 0 0) <->
  encoded_target (ext := example_ext) (mkRow4 0 0 16 8) (mkRow2 4 4) 8
  = encoded_target (ext := example_ext) (mkRow4 0 0 16 8) (mkRow2 4 4) 8.
Proof.
  apply (loss_bboxes_aux_zero_iff (ext := example_ext)
           [encoded_target (ext := example_ext) (mkRow4 0 0 16 8) (mkRow2 4 4) 8]
           [mkRow4 0 0 16 8] [mkRow2 4 4] [8] 0);
    reflexivity.
Defined.

(** ** What a step reports *)

Section CallReports.

Context {ext : Externals}.

Lemma compute_loss_has_losses (self : Criterion) (outputs : Outputs)
    (targets : list Target) (aux_loss : PyArg) (epoch : Z)
    (w w' : World) (d : Dict) :
  compute_loss self outputs targets aux_loss epoch w = Some (d, w') ->
  exists v, dict_get d "losses" = Some v.
Proof.
  intros H. apply compute_loss_inv in H
    as (ct & bt & ms & n & cp & L & bp & btp & H).
  cbv zeta in H. destruct H as (_ & _ & _ & _ & _ & _ & H).
  destruct (epoch >=? max_epoch self - no_aug_epoch self - 1)%Z.
  - destruct H as (aux_sum & _ & ->). eexists. reflexivity.
  - subst d. eexists. reflexivity.
Qed.

(** [__call__] returns exactly when [compute_loss] returns on the main
    outputs, the outputs have an ['aux_outputs'] entry, and
    [compute_loss] returns on it: no other step of it can raise. *)
Theorem call_returns_iff (self : Criterion) (outputs : Outputs)
    (targets : list Target) (epoch : Z) (w : World) :
  (exists d w', Criterion_call self outputs targets epoch w = Some (d, w')) <->
  (exists main_loss_dict w1 aux_o aux_loss_dict w',
      compute_loss self outputs targets (PyInt epoch) 0 w
        = Some (main_loss_dict, w1) /\
      aux_outputs outputs = Some aux_o /\
      compute_loss self aux_o targets (PyInt epoch) 0 w1
        = Some (aux_loss_dict, w')).
Proof.
  split.
  - intros (d & w' & H).
    apply Criterion_call_inv in H
      as (md & w1 & aux_o & ad & ml & al & Hmain & Haux_o & Haux & _).
    exists md, w1, aux_o, ad, w'. auto.
  - intros (md & w1 & aux_o & ad & w' & Hmain & Haux_o & Haux).
    destruct (compute_loss_has_losses _ _ _ _ _ _ _ _ Hmain) as [ml Hml].
    destruct (compute_loss_has_losses _ _ _ _ _ _ _ _ Haux) as [al Hal].
    unfold Criterion_call, bindM, lift, ret.
    rewrite Hmain, Haux_o, Haux, Hml, Hal. eexists. eexists. reflexivity.
Qed.

(** The keys of the dictionary a step returns, in order, and its total.
    With [max_epoch - no_aug_epoch - 1 > 0] there are five entries and
    ['losses'] is the weighted sum of the four reported losses; otherwise
    there are six, ['loss_box_aux'] having been written twice (by the
    main branch's encoded-box loss, then by the auxiliary branch's
    ['loss_box']). *)
Theorem call_reports (self : Criterion) (outputs : Outputs)
    (targets : list Target) (epoch : Z) (w w' : World) (d : Dict) :
  Criterion_call self outputs targets epoch w = Some (d, w') ->
  if (0 >=? max_epoch self - no_aug_epoch self - 1)%Z
  then dict_keys d = ["losses"; "loss_cls"; "loss_box"; "loss_box_aux";
                      "loss_cls_aux"; "loss_box_aux_aux"]
  else dict_keys d = ["losses"; "loss_cls"; "loss_box";
                      "loss_cls_aux"; "loss_box_aux"] /\
       exists loss_cls loss_box loss_cls_aux loss_box_aux,
         dict_get d "loss_cls" = Some loss_cls /\
         dict_get d "loss_box" = Some loss_box /\
         dict_get d "loss_cls_aux" = Some loss_cls_aux /\
         dict_get d "loss_box_aux" = Some loss_box_aux /\
         dict_get d "losses"
         = Some (loss_cls_weight self * loss_cls + loss_box_weight self * loss_box
                 + (loss_cls_weight self * loss_cls_aux
                    + loss_box_weight self * loss_box_aux)).
Proof.
  intros H.
  apply Criterion_call_inv in H
    as (md & w1 & aux_o & ad & ml & al & Hmain & _ & Haux & Hml & Hal & ->).
  apply compute_loss_inv in Hmain
    as (c1 & b1 & m1 & n1 & p1 & L1 & bp1 & bt1 & Hmain).
  cbv zeta in Hmain. destruct Hmain as (_ & _ & _ & _ & _ & _ & Hmain).
  apply compute_loss_inv in Haux
    as (c2 & b2 & m2 & n2 & p2 & L2 & bp2 & bt2 & Haux).
  cbv zeta in Haux. destruct Haux as (_ & _ & _ & _ & _ & _ & Haux).
  destruct (0 >=? max_epoch self - no_aug_epoch self - 1)%Z.
  - destruct Hmain as (s1 & _ & ->). destruct Haux as (s2 & _ & ->).
    reflexivity.
  - subst md ad. cbn in Hml, Hal. injection Hml as <-. injection Hal as <-.
    split; [reflexivity|].
    do 4 eexists. repeat (split; [reflexivity|]). reflexivity.
Qed.

End CallReports.

Lemma call_reports_on_example :
  exists d w',
    Criterion_call (ext := example_ext) example_criterion example_outputs
      example_targets 299 two_processes = Some (d, w') /\
    if (0 >=? max_epoch example_criterion - no_aug_epoch example_criterion - 1)%Z
    then dict_keys d = ["losses"; "loss_cls"; "loss_box"; "loss_box_aux";
                        "loss_cls_aux"; "loss_box_aux_aux"]
    else dict_keys d = ["losses"; "loss_cls"; "loss_box";
                        "loss_cls_aux"; "loss_box_aux"] /\
         exists loss_cls loss_box loss_cls_aux loss_box_aux,
           dict_get d "loss_cls" = Some loss_cls /\
           dict_get d "loss_box" = Some loss_box /\
           dict_get d "loss_cls_aux" = Some loss_cls_aux /\
           dict_get d "loss_box_aux" = Some loss_box_aux /\
           dict_get d "losses"
           = Some (loss_cls_weight example_criterion * loss_cls
                   + loss_box_weight example_criterion * loss_box
                   + (loss_cls_weight example_criterion * loss_cls_aux
                      + loss_box_weight example_criterion * loss_box_aux)).
Proof.
  eexists. eexists. split; [run_criterion|].
  eapply (call_reports (ext := example_ext) example_criterion example_outputs
            example_targets 299 two_processes).
  run_criterion.
Defined.

(** ** The initialisation in [build_e2eyolo] *)

Lemma existsb_eqb_In (i : nat) (l : list nat) :
  existsb (Nat.eqb i) l = true <-> In i l.
Proof.
  rewrite existsb_exists. split.
  - intros (j & Hj & E). apply Nat.eqb_eq in E. now subst j.
  - intros Hi. exists i. split; [exact Hi | apply Nat.eqb_refl].
Qed.

Section ForEachLayer.

Variable body : TorchModule -> option TorchModule.
Variable step : TorchModule -> TorchModule.

Hypothesis body_step :
  forall m, body m = if has_bias m then Some (step m) else None.
Hypothesis step_has_bias : forall m, has_bias (step m) = has_bias m.
Hypothesis step_idempotent :
  forall m, has_bias m = true -> step (step m) = step m.

Lemma for_each_layer_Some (layers : list nat) (ms ms' : list TorchModule) :
  for_each_layer body layers ms = Some ms' ->
  length ms' = length ms /\
  (forall i, In i layers ->
             exists m, nth_error ms i = Some m /\ has_bias m = true) /\
  (forall i, nth_error ms' i =
             if existsb (Nat.eqb i) layers
             then option_map step (nth_error ms i)
             else nth_error ms i).
Proof.
  revert ms. induction layers as [|i0 layers IH]; intros ms H; cbn in H.
  - injection H as <-. repeat split. intros i [].
  - apply bind_Some in H as (m & Hm & H).
    apply bind_Some in H as (m1 & Hm1 & H).
    apply bind_Some in H as (ms1 & Hms1 & H).
    rewrite body_step in Hm1.
    destruct (has_bias m) eqn:Hb; [|discriminate Hm1]. injection Hm1 as <-.
    apply list_set_Some in Hms1 as [Hlen1 Hnth1].
    destruct (IH _ H) as (Hlen & Hin & Hnth).
    split; [congruence|]. split.
    + intros i [<-|Hi]; [now exists m|].
      destruct (Hin i Hi) as (m2 & Hm2 & Hb2). rewrite Hnth1 in Hm2.
      destruct (i =? i0)%nat eqn:E.
      * apply Nat.eqb_eq in E. subst i. now exists m.
      * now exists m2.
    + intros i. rewrite Hnth, Hnth1. cbn [existsb].
      destruct (i =? i0)%nat eqn:E; cbn [orb].
      * apply Nat.eqb_eq in E. subst i. rewrite Hm. cbn [option_map].
        destruct (existsb (Nat.eqb i0) layers); [|reflexivity].
        now rewrite step_idempotent.
      * reflexivity.
Qed.

Lemma for_each_layer_returns (layers : list nat) (ms : list TorchModule) :
  (forall i, In i layers ->
             exists m, nth_error ms i = Some m /\ has_bias m = true) ->
  exists ms', for_each_layer body layers ms = Some ms'.
Proof.
  revert ms. induction layers as [|i0 layers IH]; intros ms Hin; cbn.
  - now exists ms.
  - destruct (Hin i0 (or_introl eq_refl)) as (m & Hm & Hb).
    rewrite Hm. cbn [bind]. rewrite body_step, Hb. cbn [bind].
    destruct (list_set_in_range ms i0 (step m)) as (ms1 & Hms1 & Hlen1 & Hnth1).
    { apply nth_error_Some. now rewrite Hm. }
    rewrite Hms1. cbn [bind]. apply IH. intros i Hi.
    destruct (Hin i (or_intror Hi)) as (m2 & Hm2 & Hb2). rewrite Hnth1.
    destruct (i =? i0)%nat.
    + exists (step m). split; [reflexivity|]. now rewrite step_has_bias.
    + now exists m2.
Qed.

End ForEachLayer.

Lemma fill_bias_step (value : R) (m : TorchModule) :
  fill_bias value m
  = if has_bias m then Some (with_bias_filled value m) else None.
Proof.
  unfold fill_bias, has_bias, with_bias_filled. now destruct (bias m).
Qed.

Lemma with_bias_filled_has_bias (value : R) (m : TorchModule) :
  has_bias (with_bias_filled value m) = has_bias m.
Proof.
  unfold with_bias_filled, has_bias.
  destruct (bias m) eqn:E; cbn; rewrite ?E; reflexivity.
Qed.

Lemma with_bias_filled_idempotent (value : R) (m : TorchModule) :
  has_bias m = true ->
  with_bias_filled value (with_bias_filled value m) = with_bias_filled value m.
Proof.
  unfold with_bias_filled, has_bias. destruct (bias m) as [b|]; [|discriminate].
  intros _. cbn. now rewrite repeat_length.
Qed.

Lemma reg_body_step (m : TorchModule) :
  (m' <- fill_bias 1.0 m ;; Some (fill_weight 0 m'))
  = if has_bias m then Some (reg_pred_initialised m) else None.
Proof.
  unfold fill_bias, has_bias, reg_pred_initialised, with_bias_filled.
  now destruct (bias m).
Qed.

Lemma reg_pred_initialised_has_bias (m : TorchModule) :
  has_bias (reg_pred_initialised m) = has_bias m.
Proof.
  unfold reg_pred_initialised, with_bias_filled, has_bias.
  destruct (bias m) eqn:E; cbn; rewrite ?E; reflexivity.
Qed.

Lemma reg_pred_initialised_idempotent (m : TorchModule) :
  has_bias m = true ->
  reg_pred_initialised (reg_pred_initialised m) = reg_pred_initialised m.
Proof.
  unfold reg_pred_initialised, with_bias_filled, fill_weight, has_bias.
  destruct (bias m) as [b|]; [|discriminate]. intros _. cbn.
  now rewrite !repeat_length.
Qed.

Lemma initialised_module (value : R) (m : TorchModule) (o c r : bool) :
  let m0 := init_batchnorm m in
  let m1 := if o then with_bias_filled value m0 else m0 in
  let m2 := if c then with_bias_filled value m1 else m1 in
  let m3 := if r then reg_pred_initialised m2 else m2 in
  (o = true -> has_bias m0 = true) ->
  (c = true -> has_bias m1 = true) ->
  (r = true -> has_bias m2 = true) ->
  kind m3 = kind m /\
  (kind m = BatchNorm2d -> eps m3 = 1e-3 /\ momentum m3 = 0.03) /\
  (kind m = OtherModule -> eps m3 = eps m /\ momentum m3 = momentum m) /\
  (r = true ->
   exists b, bias m = Some b /\ bias m3 = Some (repeat 1.0 (length b)) /\
             weight m3 = repeat 0 (length (weight m))) /\
  (r = false -> o || c = true ->
   exists b, bias m = Some b /\ bias m3 = Some (repeat value (length b)) /\
             weight m3 = weight m) /\
  (r = false -> o = false -> c = false ->
   bias m3 = bias m /\ weight m3 = weight m).
Proof.
  destruct m as [k e mo [b|] wt]; destruct k, o, c, r; cbn;
    intros Ho Hc Hr;
    try (specialize (Ho eq_refl)); try (specialize (Hc eq_refl));
    try (specialize (Hr eq_refl)); try discriminate;
    repeat split; try discriminate; try reflexivity;
    intros; try discriminate;
    exists b; rewrite ?repeat_length; repeat split; reflexivity.
Qed.

Section BuildProperties.

Context {ext : Externals}.

Lemma build_e2eyolo_inv {Crit : Type} (model model' : E2EYOLO)
    (imported : Signature) (built : Crit) (trainable : bool)
    (criterion : option Crit) :
  build_e2eyolo model imported built trainable = Some (model', criterion) ->
  exists ms1 ms2 ms3,
    for_each_layer (fill_bias bias_value) (obj_preds model)
      (map init_batchnorm (modules model)) = Some ms1 /\
    for_each_layer (fill_bias bias_value) (cls_preds model) ms1 = Some ms2 /\
    for_each_layer (fun m => m' <- fill_bias 1.0 m ;; Some (fill_weight 0 m'))
      (reg_preds model) ms2 = Some ms3 /\
    model' = mkE2EYOLO ms3 (obj_preds model) (cls_preds model) (reg_preds model) /\
    criterion = (if trainable then Some built else None) /\
    (trainable = true -> accepts imported 3 = true).
Proof.
  unfold build_e2eyolo, build_e2eyolo_criterion. intros H.
  apply bind_Some in H as (ms1 & H1 & H).
  apply bind_Some in H as (ms2 & H2 & H).
  apply bind_Some in H as (ms3 & H3 & H).
  exists ms1, ms2, ms3. repeat (split; [assumption|]).
  destruct trainable.
  - destruct (accepts imported 3); [|discriminate H].
    injection H as <- <-. repeat split.
  - injection H as <- <-. repeat split. discriminate.
Qed.

Lemma build_e2eyolo_module_at {Crit : Type} (model model' : E2EYOLO)
    (imported : Signature) (built : Crit) (trainable : bool)
    (criterion : option Crit) (i : nat) (m : TorchModule) :
  build_e2eyolo model imported built trainable = Some (model', criterion) ->
  nth_error (modules model) i = Some m ->
  let o := existsb (Nat.eqb i) (obj_preds model) in
  let c := existsb (Nat.eqb i) (cls_preds model) in
  let r := existsb (Nat.eqb i) (reg_preds model) in
  let m0 := init_batchnorm m in
  let m1 := if o then with_bias_filled bias_value m0 else m0 in
  let m2 := if c then with_bias_filled bias_value m1 else m1 in
  let m3 := if r then reg_pred_initialised m2 else m2 in
  nth_error (modules model') i = Some m3 /\
  (o = true -> has_bias m0 = true) /\
  (c = true -> has_bias m1 = true) /\
  (r = true -> has_bias m2 = true).
Proof.
  intros H Hm o c r m0 m1 m2 m3.
  apply build_e2eyolo_inv in H as (ms1 & ms2 & ms3 & H1 & H2 & H3 & -> & _ & _).
  apply (for_each_layer_Some _ _ (fill_bias_step bias_value)
           (with_bias_filled_idempotent bias_value)) in H1
    as (Hlen1 & Hin1 & Hnth1).
  apply (for_each_layer_Some _ _ (fill_bias_step bias_value)
           (with_bias_filled_idempotent bias_value)) in H2
    as (Hlen2 & Hin2 & Hnth2).
  apply (for_each_layer_Some _ _ reg_body_step
           reg_pred_initialised_idempotent) in H3
    as (Hlen3 & Hin3 & Hnth3).
  cbn [modules].
  assert (H0 : nth_error (map init_batchnorm (modules model)) i = Some m0)
    by (unfold m0; now rewrite nth_error_map, Hm).
  assert (E1 : nth_error ms1 i = Some m1).
  { rewrite Hnth1, H0. fold o. unfold m1. now destruct o. }
  assert (E2 : nth_error ms2 i = Some m2).
  { rewrite Hnth2, E1. fold c. unfold m2. now destruct c. }
  assert (E3 : nth_error ms3 i = Some m3).
  { rewrite Hnth3, E2. fold r. unfold m3. now destruct r. }
  split; [exact E3|]. split; [|split].
  - intros Eo. apply existsb_eqb_In in Eo.
    destruct (Hin1 i Eo) as (m' & Hm' & Hb). congruence.
  - intros Ec. apply existsb_eqb_In in Ec.
    destruct (Hin2 i Ec) as (m' & Hm' & Hb). congruence.
  - intros Er. apply existsb_eqb_In in Er.
    destruct (Hin3 i Er) as (m' & Hm' & Hb). congruence.
Qed.

Lemma build_e2eyolo_keeps_lists {Crit : Type} (model model' : E2EYOLO)
    (imported : Signature) (built : Crit) (trainable : bool)
    (criterion : option Crit) :
  build_e2eyolo model imported built trainable = Some (model', criterion) ->
  obj_preds model' = obj_preds model /\
  cls_preds model' = cls_preds model /\
  reg_preds model' = reg_preds model /\
  length (modules model') = length (modules model).
Proof.
  intros H.
  apply build_e2eyolo_inv in H as (ms1 & ms2 & ms3 & H1 & H2 & H3 & -> & _ & _).
  apply (for_each_layer_Some _ _ (fill_bias_step bias_value)
           (with_bias_filled_idempotent bias_value)) in H1 as (Hlen1 & _).
  apply (for_each_layer_Some _ _ (fill_bias_step bias_value)
           (with_bias_filled_idempotent bias_value)) in H2 as (Hlen2 & _).
  apply (for_each_layer_Some _ _ reg_body_step
           reg_pred_initialised_idempotent) in H3 as (Hlen3 & _).
  cbn [obj_preds cls_preds reg_preds modules].
  repeat (split; [reflexivity|]).
  now rewrite Hlen3, Hlen2, Hlen1, length_map.
Qed.

(** What [build_e2eyolo] leaves behind when it returns.  The lists of
    prediction layers and the kinds of the modules are unchanged; every
    batch normalisation has [eps = 1e-3] and [momentum = 0.03] and no
    other module's are touched; a layer of [reg_preds] has its bias
    filled with 1.0 and its weight with 0; a layer of [obj_preds] or
    [cls_preds] that is not in [reg_preds] has its bias filled with
    [bias_value] and keeps its weight; every other module keeps bias and
    weight.  Sizes are kept throughout. *)
Theorem build_e2eyolo_initialises {Crit : Type} (model model' : E2EYOLO)
    (imported : Signature) (built : Crit) (trainable : bool)
    (criterion : option Crit) :
  build_e2eyolo model imported built trainable = Some (model', criterion) ->
  obj_preds model' = obj_preds model /\
  cls_preds model' = cls_preds model /\
  reg_preds model' = reg_preds model /\
  length (modules model') = length (modules model) /\
  forall i m,
    nth_error (modules model) i = Some m ->
    exists m',
      nth_error (modules model') i = Some m' /\
      kind m' = kind m /\
      (kind m = BatchNorm2d -> eps m' = 1e-3 /\ momentum m' = 0.03) /\
      (kind m = OtherModule -> eps m' = eps m /\ momentum m' = momentum m) /\
      (In i (reg_preds model) ->
       exists b, bias m = Some b /\ bias m' = Some (repeat 1.0 (length b)) /\
                 weight m' = repeat 0 (length (weight m))) /\
      (~ In i (reg_preds model) ->
       In i (obj_preds model) \/ In i (cls_preds model) ->
       exists b, bias m = Some b /\
                 bias m' = Some (repeat bias_value (length b)) /\
                 weight m' = weight m) /\
      (~ In i (reg_preds model) -> ~ In i (obj_preds model) ->
       ~ In i (cls_preds model) ->
       bias m' = bias m /\ weight m' = weight m).
Proof.
  intros H.
  destruct (build_e2eyolo_keeps_lists _ _ _ _ _ _ H) as (Ho & Hc & Hr & Hlen).
  repeat (split; [assumption|]).
  intros i m Hm.
  destruct (build_e2eyolo_module_at _ _ _ _ _ _ i m H Hm)
    as (E3 & Hbo & Hbc & Hbr).
  destruct (initialised_module bias_value m _ _ _ Hbo Hbc Hbr)
    as (Hkind & Hbn & Hother & Hreg & Hobjcls & Hnone).
  eexists. split; [exact E3|]. split; [exact Hkind|].
  split; [exact Hbn|]. split; [exact Hother|]. split; [|split].
  - intros Hi. apply Hreg. now apply existsb_eqb_In.
  - intros Hnr Hoc. apply Hobjcls.
    + destruct (existsb (Nat.eqb i) (reg_preds model)) eqn:Er; [|reflexivity].
      apply existsb_eqb_In in Er. contradiction.
    + apply orb_true_iff. destruct Hoc as [Hi|Hi]; [left|right];
        now apply existsb_eqb_In.
  - intros Hnr Hno Hnc. apply Hnone.
    + destruct (existsb (Nat.eqb i) (reg_preds model)) eqn:Er; [|reflexivity].
      apply existsb_eqb_In in Er. contradiction.
    + destruct (existsb (Nat.eqb i) (obj_preds model)) eqn:Eo; [|reflexivity].
      apply existsb_eqb_In in Eo. contradiction.
    + destruct (existsb (Nat.eqb i) (cls_preds model)) eqn:Ec; [|reflexivity].
      apply existsb_eqb_In in Ec. contradiction.
Qed.

End BuildProperties.

(** A layer at position [i] that has a bias. *)
Lemma biased_after_step (step : TorchModule -> TorchModule) (b : bool)
    (ms ms' : list TorchModule) (i : nat) :
  (forall m, has_bias (step m) = has_bias m) ->
  nth_error ms' i = (if b then option_map step (nth_error ms i)
                     else nth_error ms i) ->
  ((exists m', nth_error ms' i = Some m' /\ has_bias m' = true) <->
   (exists m, nth_error ms i = Some m /\ has_bias m = true)).
Proof.
  intros Hstep ->. destruct b; [|reflexivity].
  destruct (nth_error ms i) as [m|]; cbn [option_map].
  - split; intros (m' & Hm' & Hb); injection Hm' as <-; eexists;
      (split; [reflexivity|]); [now rewrite <- Hstep | now rewrite Hstep].
  - split; intros (m' & Hm' & _); discriminate Hm'.
Qed.

Lemma init_batchnorm_has_bias (m : TorchModule) :
  has_bias (init_batchnorm m) = has_bias m.
Proof. unfold init_batchnorm. now destruct (kind m). Qed.

Section BuildReturns.

Context {ext : Externals}.

(** [build_e2eyolo] returns exactly when every layer of its three lists
    of prediction layers has a bias and, in trainable mode, the imported
    [build_criterion] takes the three arguments it is called with; a
    prediction layer without bias is an AttributeError. *)
Theorem build_e2eyolo_returns_iff {Crit : Type} (model : E2EYOLO)
    (imported : Signature) (built : Crit) (trainable : bool) :
  (exists r, build_e2eyolo model imported built trainable = Some r) <->
  (forall i, In i (obj_preds model) \/ In i (cls_preds model)
             \/ In i (reg_preds model) ->
             exists m, nth_error (modules model) i = Some m /\ has_bias m = true)
  /\ (trainable = true -> accepts imported 3 = true).
Proof.
  set (ms0 := map init_batchnorm (modules model)).
  assert (H0 : forall i,
    (exists m, nth_error ms0 i = Some m /\ has_bias m = true) <->
    (exists m, nth_error (modules model) i = Some m /\ has_bias m = true)).
  { intros i.
    apply (biased_after_step init_batchnorm true);
      [apply init_batchnorm_has_bias|]. unfold ms0. apply nth_error_map. }
  split.
  - intros [[model' criterion] H].
    apply build_e2eyolo_inv in H
      as (ms1 & ms2 & ms3 & H1 & H2 & H3 & _ & _ & Hacc).
    fold ms0 in H1.
    apply (for_each_layer_Some _ _ (fill_bias_step bias_value)
             (with_bias_filled_idempotent bias_value)) in H1
      as (_ & Hin1 & Hnth1).
    apply (for_each_layer_Some _ _ (fill_bias_step bias_value)
             (with_bias_filled_idempotent bias_value)) in H2
      as (_ & Hin2 & Hnth2).
    apply (for_each_layer_Some _ _ reg_body_step
             reg_pred_initialised_idempotent) in H3
      as (_ & Hin3 & _).
    split; [|exact Hacc].
    assert (H1' : forall i,
      (exists m, nth_error ms1 i = Some m /\ has_bias m = true) <->
      (exists m, nth_error ms0 i = Some m /\ has_bias m = true))
      by (intros i; eapply biased_after_step;
          [apply (with_bias_filled_has_bias bias_value) | apply Hnth1]).
    assert (H2' : forall i,
      (exists m, nth_error ms2 i = Some m /\ has_bias m = true) <->
      (exists m, nth_error ms1 i = Some m /\ has_bias m = true))
      by (intros i; eapply biased_after_step;
          [apply (with_bias_filled_has_bias bias_value) | apply Hnth2]).
    intros i [Hi|[Hi|Hi]].
    + apply H0. now apply Hin1.
    + apply H0, H1'. now apply Hin2.
    + apply H0, H1', H2'. now apply Hin3.
  - intros [Hbias Hacc].
    destruct (for_each_layer_returns _ _ (fill_bias_step bias_value)
                (with_bias_filled_has_bias bias_value) (obj_preds model) ms0)
      as [ms1 H1].
    { intros i Hi. apply H0. apply Hbias. now left. }
    pose proof (for_each_layer_Some _ _ (fill_bias_step bias_value)
                  (with_bias_filled_idempotent bias_value) _ _ _ H1)
      as (_ & _ & Hnth1).
    assert (H1' : forall i,
      (exists m, nth_error ms1 i = Some m /\ has_bias m = true) <->
      (exists m, nth_error ms0 i = Some m /\ has_bias m = true))
      by (intros i; eapply biased_after_step;
          [apply (with_bias_filled_has_bias bias_value) | apply Hnth1]).
    destruct (for_each_layer_returns _ _ (fill_bias_step bias_value)
                (with_bias_filled_has_bias bias_value) (cls_preds model) ms1)
      as [ms2 H2].
    { intros i Hi. apply H1', H0. apply Hbias. right. now left. }
    pose proof (for_each_layer_Some _ _ (fill_bias_step bias_value)
                  (with_bias_filled_idempotent bias_value) _ _ _ H2)
      as (_ & _ & Hnth2).
    assert (H2' : forall i,
      (exists m, nth_error ms2 i = Some m /\ has_bias m = true) <->
      (exists m, nth_error ms1 i = Some m /\ has_bias m = true))
      by (intros i; eapply biased_after_step;
          [apply (with_bias_filled_has_bias bias_value) | apply Hnth2]).
    destruct (for_each_layer_returns _ _ reg_body_step
                reg_pred_initialised_has_bias (reg_preds model) ms2)
      as [ms3 H3].
    { intros i Hi. apply H2', H1', H0. apply Hbias. right. now right. }
    unfold build_e2eyolo, build_e2eyolo_criterion. fold ms0.
    rewrite H1. cbn [bind]. rewrite H2. cbn [bind]. rewrite H3. cbn [bind].
    destruct trainable; [rewrite (Hacc eq_refl)|]; eexists; reflexivity.
Qed.

End BuildReturns.

(** ** The prior probability of the prediction heads *)

Lemma real_sigmoid_of_bias_value :
  real_sigmoid (bias_value (ext := example_ext)) = init_prob.
Proof.
  unfold bias_value, real_sigmoid, init_prob. cbn [torch_log example_ext].
  rewrite Ropp_involutive, exp_ln by lra.
  replace ((1.0 - 0.01) / 0.01) with 99 by lra.
  replace (1 + 99) with 100 by lra. lra.
Qed.

(** With the logarithm and the sigmoid of the reals: after the build,
    every bias of an objectness or class prediction layer (one that is
    not also a regression layer) is a logit of probability
    [init_prob = 0.01]. *)
Theorem prediction_biases_give_init_prob {Crit : Type} (model model' : E2EYOLO)
    (imported : Signature) (built : Crit) (trainable : bool)
    (criterion : option Crit) (i : nat) (m' : TorchModule) (b : list R) (x : R) :
  build_e2eyolo (ext := example_ext) model imported built trainable
    = Some (model', criterion) ->
  In i (obj_preds model) \/ In i (cls_preds model) ->
  ~ In i (reg_preds model) ->
  nth_error (modules model') i = Some m' ->
  bias m' = Some b ->
  In x b ->
  real_sigmoid x = 0.01.
Proof.
  intros H Hoc Hnr Hm' Hb Hx.
  destruct (build_e2eyolo_keeps_lists _ _ _ _ _ _ H) as (_ & _ & _ & Hlen).
  destruct (nth_error (modules model) i) as [m|] eqn:Hm.
  - destruct (build_e2eyolo_module_at _ _ _ _ _ _ i m H Hm)
      as (E3 & Hbo & Hbc & Hbr).
    destruct (initialised_module (bias_value (ext := example_ext)) m _ _ _
                Hbo Hbc Hbr) as (_ & _ & _ & _ & Hobjcls & _).
    rewrite Hm' in E3. injection E3 as E3.
    destruct Hobjcls as (b0 & _ & Hb0 & _).
    + destruct (existsb (Nat.eqb i) (reg_preds model)) eqn:Er; [|reflexivity].
      apply existsb_eqb_In in Er. contradiction.
    + apply orb_true_iff. destruct Hoc as [Hi|Hi]; [left|right];
        now apply existsb_eqb_In.
    + rewrite <- E3, Hb in Hb0. injection Hb0 as ->.
      apply repeat_spec in Hx. subst x.
      rewrite real_sigmoid_of_bias_value. reflexivity.
  - apply nth_error_None in Hm. rewrite <- Hlen in Hm.
    apply nth_error_None in Hm. congruence.
Qed.

Lemma build_e2eyolo_initialises_on_example :
  exists model' criterion,
    build_e2eyolo (ext := example_ext) example_model (mkSignature 3 0 false)
      example_criterion true = Some (model', criterion) /\
    obj_preds model' = obj_preds example_model /\
    cls_preds model' = cls_preds example_model /\
    reg_preds model' = reg_preds example_model /\
    length (modules model') = length (modules example_model) /\
    forall i m,
      nth_error (modules example_model) i = Some m ->
      exists m',
        nth_error (modules model') i = Some m' /\
        kind m' = kind m /\
        (kind m = BatchNorm2d -> eps m' = 1e-3 /\ momentum m' = 0.03) /\
        (kind m = OtherModule -> eps m' = eps m /\ momentum m' = momentum m) /\
        (In i (reg_preds example_model) ->
         exists b, bias m = Some b /\ bias m' = Some (repeat 1.0 (length b)) /\
                   weight m' = repeat 0 (length (weight m))) /\
        (~ In i (reg_preds example_model) ->
         In i (obj_preds example_model) \/ In i (cls_preds example_model) ->
         exists b, bias m = Some b /\
                   bias m' = Some (repeat (bias_value (ext := example_ext))
                                          (length b)) /\
                   weight m' = weight m) /\
        (~ In i (reg_preds example_model) -> ~ In i (obj_preds example_model) ->
         ~ In i (cls_preds example_model) ->
         bias m' = bias m /\ weight m' = weight m).
Proof.
  eexists. eexists. split; [run_criterion|].
  eapply (build_e2eyolo_initialises (ext := example_ext) example_model _
            (mkSignature 3 0 false) example_criterion true).
  run_criterion.
Defined.

Lemma prediction_biases_give_init_prob_on_example :
  exists model' criterion m' b x,
    build_e2eyolo (ext := example_ext) example_model (mkSignature 3 0 false)
      example_criterion true = Some (model', criterion) /\
    nth_error (modules model') 2 = Some m' /\
    bias m' = Some b /\
    In x b /\
    real_sigmoid x = 0.01.
Proof.
  do 5 eexists. split; [run_criterion|]. split; [reflexivity|].
  split; [reflexivity|]. split; [left; reflexivity|].
  eapply (prediction_biases_give_init_prob (Crit := Criterion) example_model _
            (mkSignature 3 0 false) example_criterion true _ 2%nat).
  - run_criterion.
  - right. left. reflexivity.
  - intros [H|[]]. discriminate H.
  - reflexivity.
  - reflexivity.
  - left. reflexivity.
Defined.

(** ** The sign of the classification loss *)

Lemma real_bce_nonneg (x s : R) :
  0 <= s <= 1 -> 0 <= real_bce_with_logits x s.
Proof.
  intros [Hs0 Hs1]. unfold real_bce_with_logits.
  pose proof (exp_pos (- x)) as Hexp.
  destruct (Rle_lt_dec 0 x) as [Hx|Hx].
  - assert (Hln : 0 <= ln (1 + exp (- x))).
    { rewrite <- ln_1. apply Rlt_le, ln_increasing; lra. }
    assert (Hprod : 0 <= (1 - s) * x) by (apply Rmult_le_pos; lra).
    lra.
  - assert (Hln : - x <= ln (1 + exp (- x))).
    { rewrite <- (ln_exp (- x)) at 1. apply Rlt_le, ln_increasing; lra. }
    assert (Hprod : 0 <= s * (- x)) by (apply Rmult_le_pos; lra).
    lra.
Qed.

Lemma real_pow_nonneg (x b : R) : 0 <= real_pow x b.
Proof.
  unfold real_pow. destruct (Req_EM_T x 0); [lra|].
  unfold Rpower. apply Rlt_le, exp_pos.
Qed.

Lemma t2_sum_nonneg (t : Tensor2) :
  (forall i j v, t2_get t i j = Some v -> 0 <= v) -> 0 <= t2_sum t.
Proof.
  intros Hget. unfold t2_sum. apply tsum_nonneg. apply Forall_map.
  apply Forall_forall. intros row Hrow. apply tsum_nonneg.
  apply Forall_forall. intros v Hv.
  apply In_nth_error in Hrow as [i Hi]. apply In_nth_error in Hv as [j Hj].
  apply (Hget i j). unfold t2_get. now rewrite Hi.
Qed.

Section LossClassesSome.

Context {ext : Externals}.

Lemma loss_classes_Some_in_range (pred_cls L : Tensor2) (label : list Z)
    (score : list R) (beta : R) :
  loss_classes pred_cls (label, score) beta = Some L ->
  forall i, In i (nonzero (fg_mask (t2_cols pred_cls) label)) ->
            (i < length score)%nat /\ (i < length (t2_rows pred_cls))%nat.
Proof.
  intros H i Hi. unfold loss_classes in H.
  apply bind_Some in H as (pos_label & Hpl & H).
  apply bind_Some in H as (score_pos & Hsp & H).
  apply bind_Some in H as (sig_pos & _ & H).
  apply bind_Some in H as (pred_pos & Hpp & _).
  apply (index_rows_Some _ _ _ 0) in Hsp as [Hsp _].
  split; [now apply Hsp|].
  apply (index_rows_Some _ _ _ 0%Z) in Hpl as [_ ->].
  unfold index2 in Hpp. rewrite map_map, combine_map_r, mapM_map in Hpp.
  destruct (proj1 (mapM_returns_iff _ _) (ex_intro _ _ Hpp) i Hi) as [x Hx].
  cbn [fst snd] in Hx. unfold t2_get in Hx.
  apply bind_Some in Hx as (row & Hrow & _).
  apply nth_error_Some. now rewrite Hrow.
Qed.

End LossClassesSome.

(** With the kernels of the reals: when every assignment metric of the
    batch lies in [0, 1], the ['loss_cls'] entry of [compute_loss] is
    never negative, whatever the logits, the labels and the matcher. *)
Theorem loss_cls_is_nonnegative (self : Criterion) (outputs : Outputs)
    (targets : list Target) (aux_loss : PyArg) (epoch : Z)
    (w w' : World) (d : Dict)
    (cls_targets : list Z) (box_targets : list Row4) (metrics : list R) (v : R) :
  compute_loss (ext := example_ext) self outputs targets aux_loss epoch w
    = Some (d, w') ->
  assign_batch self outputs targets aux_loss
    = Some (cls_targets, box_targets, metrics) ->
  Forall (fun s => 0 <= s <= 1) metrics ->
  dict_get d "loss_cls" = Some v ->
  0 <= v.
Proof.
  intros H Ha Hmetrics Hv. apply compute_loss_inv in H
    as (ct & bt & ms & num_fgs & cls_preds & L & bp & btp & H).
  cbv zeta in H. destruct H as (Ha' & Hn & Hview & HL & _ & _ & H).
  rewrite Ha in Ha'. injection Ha' as <- <- <-.
  apply normalize_num_fgs_value in Hn.
  assert (Hnum : 1 <= num_fgs).
  { rewrite Hn. eapply Rle_trans; [|apply Rmax_l]. lra. }
  assert (Hd : dict_get d "loss_cls" = Some (t2_sum L / num_fgs)).
  { destruct (epoch >=? max_epoch self - no_aug_epoch self - 1)%Z.
    - destruct H as (aux_sum & _ & ->). reflexivity.
    - subst d. reflexivity. }
  rewrite Hd in Hv. injection Hv as <-.
  apply Rmult_le_pos; [|apply Rlt_le, Rinv_0_lt_compat; lra].
  destruct (view_rows_shape _ _ _ Hview) as (_ & Hwf & _).
  pose proof (loss_classes_Some_in_range _ _ _ _ _ HL) as Hrange.
  destruct (loss_classes_in_range (ext := example_ext) cls_preds cls_targets
              metrics 2.0 Hwf Hrange) as (L' & HL' & HLshape & HLget).
  rewrite HL in HL'. injection HL' as <-.
  apply t2_sum_nonneg. intros i j v Hget.
  destruct HLshape as [HLn HLc].
  assert (Hi : (i < length (t2_rows cls_preds))%nat).
  { unfold t2_get in Hget. apply bind_Some in Hget as (row & Hrow & _).
    rewrite <- HLn. apply nth_error_Some. now rewrite Hrow. }
  assert (Hj : (j < t2_cols cls_preds)%nat).
  { unfold t2_get in Hget. apply bind_Some in Hget as (row & Hrow & Hx).
    rewrite Forall_forall in HLc.
    rewrite <- (HLc row) by (eapply nth_error_In; eauto).
    apply nth_error_Some. now rewrite Hx. }
  destruct (t2_get_in_range cls_preds _ _ i j (conj eq_refl Hwf) Hi Hj)
    as [x Hx].
  rewrite (HLget i j x Hx) in Hget. injection Hget as <-.
  unfold quality_focal_entry.
  cbn [binary_cross_entropy_with_logits tensor_pow sigmoid example_ext].
  assert (Hscore : 0 <= nth i metrics 0 <= 1).
  { destruct (nth_error metrics i) as [s|] eqn:Hs.
    - rewrite (nth_error_nth _ _ _ Hs). rewrite Forall_forall in Hmetrics.
      apply Hmetrics. eapply nth_error_In; eauto.
    - rewrite nth_overflow by (now apply nth_error_None). lra. }
  destruct (_ && _).
  - apply Rmult_le_pos; [now apply real_bce_nonneg | apply real_pow_nonneg].
  - apply Rmult_le_pos; [apply real_bce_nonneg; lra | apply real_pow_nonneg].
Qed.

Lemma loss_cls_is_nonnegative_on_example :
  exists d w' v,
    compute_loss (ext := example_ext) example_criterion example_outputs
      example_targets (PyBool true) 0 single_process = Some (d, w') /\
    dict_get d "loss_cls" = Some v /\ 0 <= v.
Proof.
  do 3 eexists. split; [run_criterion|]. split; [reflexivity|].
  eapply (loss_cls_is_nonnegative example_criterion example_outputs
            example_targets (PyBool true) 0 single_process).
  - run_criterion.
  - run_criterion.
  - repeat constructor; lra.
  - reflexivity.
Defined.
